(** * Changelog automation: commit parsing, version bumps, entry formatting
      and document splicing

    Shallow embedding of [scripts/changelog/utils.py] and of
    [scripts/changelog/update-changelog.py] (the path on which [utils] is
    importable), with the properties of the changelog tool stated over it.

    Conventions of the embedding.
    - A Python [str] is a [string]; its characters are the code points
      0..255, so the character classes of [re] and [str.lower] are the
      Latin-1 part of the Unicode tables.
    - A Python [dict] from category names to item lists is a
      [gmap string (list string)].
    - Exceptions are values of [exn]; a call that may raise returns a
      [result].  Console output is a list of printed messages.
    - The collaborators (git log, wall clock, files, console input) are
      explicit arguments. *)

From Stdlib Require Import Ascii String NArith List Bool Lia DecimalString DecimalN.
From stdpp Require Import base option list gmap strings.

Local Open Scope N_scope.
Local Open Scope stdpp_scope.

(** ** Python strings *)

Module Py.

Definition LF : ascii := "010"%char.
Definition nl : string := String LF "".

Definition code (c : ascii) : N := N_of_ascii c.

Definition in_range (lo hi : N) (c : ascii) : bool :=
  (lo <=? code c) && (code c <=? hi).

(** [\d] *)
Definition is_digit (c : ascii) : bool := in_range 48 57 c.

(** [[a-zA-Z]] *)
Definition is_ascii_letter (c : ascii) : bool :=
  in_range 65 90 c || in_range 97 122 c.

(** [\w] on code points below 256. *)
Definition is_word (c : ascii) : bool :=
  is_digit c || is_ascii_letter c || (code c =? 95)
  || (code c =? 170) || in_range 178 179 c || (code c =? 181)
  || in_range 185 186 c || in_range 188 190 c
  || in_range 192 214 c || in_range 216 246 c || in_range 248 255 c.

(** [\s] on code points below 256. *)
Definition is_space (c : ascii) : bool :=
  in_range 9 13 c || in_range 28 32 c || (code c =? 133) || (code c =? 160).

(** [str.lower] on one character. *)
Definition lower_char (c : ascii) : ascii :=
  if in_range 65 90 c || in_range 192 214 c || in_range 216 222 c
  then ascii_of_N (code c + 32) else c.

Fixpoint lower (s : string) : string :=
  match s with
  | EmptyString => EmptyString
  | String c r => String (lower_char c) (lower r)
  end.

(** [s.startswith(p)] *)
Definition startswith (s p : string) : bool := String.prefix p s.

(** [needle in hay] *)
Fixpoint contains (needle hay : string) : bool :=
  String.prefix needle hay ||
  match hay with
  | EmptyString => false
  | String _ r => contains needle r
  end.

(** Longest prefix whose characters satisfy [p], and the rest. *)
Fixpoint span (p : ascii -> bool) (s : string) : string * string :=
  match s with
  | EmptyString => (EmptyString, EmptyString)
  | String c r =>
      if p c then let '(a, b) := span p r in (String c a, b)
      else (EmptyString, s)
  end.

Fixpoint drop (n : nat) (s : string) : string :=
  match n, s with
  | O, _ => s
  | S k, EmptyString => EmptyString
  | S k, String _ r => drop k r
  end.

(** [s[:n]] *)
Fixpoint take (n : nat) (s : string) : string :=
  match n, s with
  | O, _ => EmptyString
  | S k, EmptyString => EmptyString
  | S k, String c r => String c (take k r)
  end.

Fixpoint drop_last (s : string) : string :=
  match s with
  | EmptyString => EmptyString
  | String c EmptyString => EmptyString
  | String c r => String c (drop_last r)
  end.

(** [s[1:-1]] *)
Definition slice_1_m1 (s : string) : string := drop_last (drop 1 s).

(** [s.replace(old, new)] for a non-empty [old]: occurrences are replaced
    left to right without overlap.  [skip] counts the characters of an
    occurrence that are still to be passed over. *)
Fixpoint replace_from (old new : string) (skip : nat) (s : string) : string :=
  match s with
  | EmptyString => EmptyString
  | String c r =>
      match skip with
      | S k => replace_from old new k r
      | O =>
          if String.prefix old s
          then new +:+ replace_from old new (String.length old - 1) r
          else String c (replace_from old new 0 r)
      end
  end.

Definition replace (old new s : string) : string := replace_from old new 0 s.

(** [s.split('\n')[0]] and ['\n'.join(s.split('\n')[1:])]: the text before
    the first line feed and the text after it. *)
Definition first_line (s : string) : string := fst (span (fun c => negb (c =? LF)%char) s).
Definition after_first_line (s : string) : string :=
  drop 1 (snd (span (fun c => negb (c =? LF)%char) s)).

(** [s.split(sep)] for a one-character separator. *)
Fixpoint split_from (sep : ascii) (cur : string) (s : string) : list string :=
  match s with
  | EmptyString => [cur]
  | String c r =>
      if (c =? sep)%char then cur :: split_from sep EmptyString r
      else split_from sep (cur +:+ String c EmptyString) r
  end.

Definition split_on (sep : ascii) (s : string) : list string :=
  split_from sep EmptyString s.

(** [s.split('\n')] *)
Definition split_lines (s : string) : list string := split_on LF s.

Fixpoint all_chars (p : ascii -> bool) (s : string) : bool :=
  match s with
  | EmptyString => true
  | String c r => p c && all_chars p r
  end.

Definition is_empty (s : string) : bool :=
  match s with EmptyString => true | String _ _ => false end.

(** [str(n)] and [int(s)] for a non-negative integer in decimal. *)
Definition str_of_N (n : N) : string := NilEmpty.string_of_uint (N.to_uint n).
Definition int_of_digits (s : string) : N :=
  match NilEmpty.uint_of_string s with
  | Some d => N.of_uint d
  | None => 0
  end.

(** [''.join(l)] *)
Definition concat (l : list string) : string := fold_right String.append EmptyString l.

End Py.

(** ** Exceptions *)

Inductive exn : Type :=
  | ValueError (msg : string)
  | FileNotFoundError
  | AttributeError
  | JSONDecodeError
  | ReError
  | IndexError
  | EOFError.

Inductive result (A : Type) : Type :=
  | Ok (a : A)
  | Raise (e : exn).
Arguments Ok {A} a.
Arguments Raise {A} e.

#[global] Instance result_ret : MRet result := fun A a => Ok a.
#[global] Instance result_bind : MBind result := fun A B k r =>
  match r with
  | Ok a => k a
  | Raise e => Raise e
  end.

Definition is_ok {A : Type} (r : result A) : bool :=
  match r with Ok _ => true | Raise _ => false end.


(** ** The [semver] package

    [semver] is a dependency of the scripts, declared in their headers; its
    code is not among the sources.  The definitions of this module follow
    the specification's version triple, bump rules and version ordering,
    with the details of python-semver 3: [VersionInfo.parse] matches the
    strict [MAJOR.MINOR.PATCH[-prerelease][+build]] expression (as every
    [$] of [re], its [$] also accepts one final line feed), the bump
    methods build a fresh version without prerelease and build parts, and
    [compare] is the precedence order of semantic versioning. *)

Module semver.
Import Py.

(** Modelled from the spec: the version triple of the [semver] package,
    non-negative integers with optional prerelease and build parts. *)
Record VersionInfo : Type := mkVersion {
  major : N;
  minor : N;
  patch : N;
  prerelease : option string;
  build : option string
}.

(** [0|[1-9]\d*] against a whole run of digits. *)
Definition numeric_ok (ds : string) : bool :=
  match ds with
  | EmptyString => false
  | String c r => is_empty r || negb (c =? "0")%char
  end.

(** [[0-9a-zA-Z-]] *)
Definition is_ident_char (c : ascii) : bool :=
  is_digit c || is_ascii_letter c || (c =? "-")%char.

Definition is_ident_or_dot (c : ascii) : bool :=
  is_ident_char c || (c =? ".")%char.

(** [0|[1-9]\d*|\d*[a-zA-Z-][0-9a-zA-Z-]*] against a run of identifier
    characters. *)
Definition prerelease_id_ok (id : string) : bool :=
  if all_chars is_digit id then numeric_ok id else negb (is_empty id).

Definition prerelease_ok (p : string) : bool :=
  forallb prerelease_id_ok (split_on "." p).

Definition build_ok (b : string) : bool :=
  forallb (fun id => negb (is_empty id)) (split_on "." b).

(** An optional [sep]-introduced part made of dot-separated identifiers. *)
Definition optional_part (sep : ascii) (ok : string -> bool) (r : string)
  : option (option string * string) :=
  match r with
  | String c r' =>
      if (c =? sep)%char then
        let '(p, r'') := span is_ident_or_dot r' in
        if ok p then Some (Some p, r'') else None
      else Some (None, r)
  | EmptyString => Some (None, r)
  end.

(** One numeric field of the core, and what follows it. *)
Definition numeric_field (s : string) : option (N * string) :=
  let '(ds, r) := span is_digit s in
  if numeric_ok ds then Some (int_of_digits ds, r) else None.

Definition expect_dot (r : string) : option string :=
  match r with
  | String c r' => if (c =? ".")%char then Some r' else None
  | EmptyString => None
  end.

(** [$]: the end of the text, or a line feed that ends it. *)
Definition at_end (r : string) : bool :=
  match r with
  | EmptyString => true
  | String c r' => (c =? LF)%char && is_empty r'
  end.

Definition parse_opt (version : string) : option VersionInfo :=
  '(ma, r1) ← numeric_field version;
  r2 ← expect_dot r1;
  '(mi, r3) ← numeric_field r2;
  r4 ← expect_dot r3;
  '(pa, r5) ← numeric_field r4;
  '(pre, r6) ← optional_part "-" prerelease_ok r5;
  '(bld, r7) ← optional_part "+" build_ok r6;
  if at_end r7 then Some (mkVersion ma mi pa pre bld) else None.

(** Modelled from the spec: [VersionInfo.parse] of the [semver] package;
    a text outside the strict grammar is rejected with [ValueError]. *)
Definition parse (version : string) : result VersionInfo :=
  match parse_opt version with
  | Some v => Ok v
  | None => Raise (ValueError (version +:+ " is not valid SemVer string"))
  end.

(** Modelled from the spec: [bump_major] of the [semver] package
    increments major and resets minor and patch to 0. *)
Definition bump_major (v : VersionInfo) : VersionInfo :=
  mkVersion (major v + 1) 0 0 None None.

(** Modelled from the spec: [bump_minor] of the [semver] package
    increments minor and resets patch to 0. *)
Definition bump_minor (v : VersionInfo) : VersionInfo :=
  mkVersion (major v) (minor v + 1) 0 None None.

(** Modelled from the spec: [bump_patch] of the [semver] package
    increments patch. *)
Definition bump_patch (v : VersionInfo) : VersionInfo :=
  mkVersion (major v) (minor v) (patch v + 1) None None.

(** [str(v)] *)
Definition to_string (v : VersionInfo) : string :=
  str_of_N (major v) +:+ "." +:+ str_of_N (minor v) +:+ "." +:+ str_of_N (patch v)
  +:+ match prerelease v with
      | Some p => if is_empty p then "" else "-" +:+ p
      | None => ""
      end
  +:+ match build v with
      | Some b => if is_empty b then "" else "+" +:+ b
      | None => ""
      end.

(** Precedence.  A prerelease identifier is a number or a text. *)
Inductive tag : Type :=
  | TagInt (n : N)
  | TagStr (s : string).

Definition tag_of (id : string) : tag :=
  if negb (is_empty id) && all_chars is_digit id then TagInt (int_of_digits id)
  else TagStr id.

Definition cmp_prerelease_tag (a b : tag) : comparison :=
  match a, b with
  | TagInt x, TagInt y => N.compare x y
  | TagInt _, TagStr _ => Lt
  | TagStr _, TagInt _ => Gt
  | TagStr x, TagStr y => String.compare x y
  end.

Fixpoint cmp_tags (la lb : list tag) (otherwise : comparison) : comparison :=
  match la, lb with
  | a :: la', b :: lb' =>
      match cmp_prerelease_tag a b with
      | Eq => cmp_tags la' lb' otherwise
      | c => c
      end
  | _, _ => otherwise
  end.

Definition nat_cmp (a b : option string) : comparison :=
  let a := default "" a in
  let b := default "" b in
  cmp_tags (tag_of <$> split_on "." a) (tag_of <$> split_on "." b)
           (Nat.compare (String.length a) (String.length b)).

Definition cmp_core (v1 v2 : VersionInfo) : comparison :=
  match N.compare (major v1) (major v2) with
  | Eq => match N.compare (minor v1) (minor v2) with
          | Eq => N.compare (patch v1) (patch v2)
          | c => c
          end
  | c => c
  end.

Definition truthy (o : option string) : bool :=
  match o with
  | Some s => negb (is_empty s)
  | None => false
  end.

(** Modelled from the spec: [compare] of the [semver] package, the
    standard ordering of versions; [Lt], [Eq], [Gt] stand for -1, 0, 1. *)
Definition compare (v1 v2 : VersionInfo) : comparison :=
  match cmp_core v1 v2 with
  | Eq =>
      match nat_cmp (prerelease v1) (prerelease v2) with
      | Eq => Eq
      | c => if negb (truthy (prerelease v1)) then Gt
             else if negb (truthy (prerelease v2)) then Lt
             else c
      end
  | c => c
  end.

Definition gt (v1 v2 : VersionInfo) : Prop := compare v1 v2 = Gt.

End semver.

(** ** Commit parsing ([utils.py]) *)

Import Py.

(** Printed lines; colour codes and pictographs are left out. *)
Definition console : Type := list string.

(** A commit as git reports it. *)
Record git_commit : Type := mkGitCommit {
  hexsha : string;
  message : string;
  author_name : string
}.

(** What the git collaborator answers: the commits since the last tag (all
    commits when there is no tag), or a failure. *)
Inductive git_state : Type :=
  | GitFailure (error : string)
  | GitLog (commits : list git_commit).

(** The raw commit dictionary built by [parse_commits]. *)
Record raw_commit : Type := mkRaw {
  r_hash : string;
  r_subject : string;
  r_body : string;
  r_author : string
}.

(** The dictionary returned by [parse_commit_message].  An ignored commit
    keeps the keys of the raw commit and has neither ["scope"] nor ["pr"];
    every reader of those keys goes through [get], so they read as [None]. *)
Record commit : Type := mkCommit {
  c_hash : string;
  c_type : string;
  c_scope : option string;
  c_subject : string;
  c_body : string;
  c_author : string;
  c_pr : option string
}.

Definition in_list (x : string) (l : list string) : bool :=
  existsb (String.eqb x) l.

(** [any(word in lower for word in words)] *)
Definition any_in (words : list string) (text : string) : bool :=
  existsb (fun w => contains w text) words.

(** [(.+)$]: one or more characters other than a line feed, up to the end. *)
Definition match_description (r : string) : option string :=
  let '(d, t) := span (fun c => negb (c =? LF)%char) r in
  if is_empty d then None
  else if semver.at_end t then Some d else None.

(** [(\([^)]+\))?]: the group with its parentheses, and what follows. *)
Definition match_scope (r : string) : option (option string * string) :=
  match r with
  | String "("%char r1 =>
      let '(sc, r2) := span (fun c => negb (c =? ")")%char) r1 in
      match r2 with
      | String ")"%char r3 =>
          if is_empty sc then None
          else Some (Some ("(" +:+ sc +:+ ")"), r3)
      | _ => None
      end
  | _ => Some (None, r)
  end.

(** [re.match(r"^(\w+)(\([^)]+\))?: (.+)$", subject)] and its groups. *)
Definition match_conventional (subject : string)
  : option (string * option string * string) :=
  let '(type_name, r1) := span is_word subject in
  if is_empty type_name then None
  else
    '(scope, r2) ← match_scope r1;
    if startswith r2 ": " then
      description ← match_description (drop 2 r2);
      Some (type_name, scope, description)
    else None.

(** [re.search(r"#(\d+)", text)], group 1. *)
Fixpoint search_pr (text : string) : option string :=
  match text with
  | EmptyString => None
  | String c r =>
      if (c =? "#")%char then
        let '(ds, _) := span is_digit r in
        if is_empty ds then search_pr r else Some ds
      else search_pr r
  end.

Definition extract_pr_number (subject body : string) : option string :=
  match search_pr subject with
  | Some n => Some n
  | None => if is_empty body then None else search_pr body
  end.

Definition infer_commit_type (subject : string) : string :=
  let lower := lower subject in
  if any_in ["fix"; "bug"; "patch"] lower then "fix"
  else if any_in ["add"; "new"; "feat"] lower then "feat"
  else if any_in ["update"; "change"; "modify"] lower then "change"
  else if any_in ["remove"; "delete"] lower then "remove"
  else if any_in ["security"; "vuln"] lower then "security"
  else if contains "deprecate" lower then "deprecate"
  else if any_in ["doc"; "readme"] lower then "docs"
  else if contains "test" lower then "test"
  else if any_in ["chore"; "build"; "ci"] lower then "chore"
  else "change".

Definition ignored (c : raw_commit) : commit :=
  mkCommit (r_hash c) "ignore" None (r_subject c) (r_body c) (r_author c) None.

Definition parse_commit_message (c : raw_commit) : commit :=
  let subject := r_subject c in
  if is_empty subject then ignored c
  else if startswith subject "Merge " then ignored c
  else
    match match_conventional subject with
    | Some (type_name, scope, description) =>
        mkCommit (take 8 (r_hash c)) (lower type_name) (slice_1_m1 <$> scope)
                 description (r_body c) (r_author c)
                 (extract_pr_number subject (r_body c))
    | None =>
        mkCommit (take 8 (r_hash c)) (infer_commit_type subject) None
                 subject (r_body c) (r_author c)
                 (extract_pr_number subject (r_body c))
    end.

(** The dictionary [parse_commits] hands to [parse_commit_message]. *)
Definition raw_of_git (g : git_commit) : raw_commit :=
  mkRaw (hexsha g) (first_line (message g)) (after_first_line (message g))
        (author_name g).

Definition not_ignored (c : commit) : bool := negb (c_type c =? "ignore")%string.

Definition parse_commits (git : git_state) : list commit * console :=
  match git with
  | GitLog commits =>
      (List.filter not_ignored
              (parse_commit_message <$> (raw_of_git <$> commits)), [])
  | GitFailure error => ([], ["Error parsing git commits: " +:+ error])
  end.

(** ** Grouping commits into categories ([update-changelog.py]) *)

(** The six empty buckets [get_changes_from_git] starts from. *)
Definition empty_changes : gmap string (list string) :=
  <["Added" := []]> (<["Changed" := []]> (<["Deprecated" := []]>
  (<["Removed" := []]> (<["Fixed" := []]> (<["Security" := []]> ∅))))).

(** [f"{commit['subject']}{pr_info}"] *)
Definition render_entry (c : commit) : string :=
  let pr_info :=
    match c_pr c with
    | Some n => if is_empty n then "" else " [#" +:+ n +:+ "]"
    | None => ""
    end in
  c_subject c +:+ pr_info.

(** [changes[category].append(entry)] *)
Definition append_to (category entry : string) (changes : gmap string (list string))
  : gmap string (list string) :=
  alter (fun items => items ++ [entry]) category changes.

(** One turn of the loop over the commits. *)
Definition add_commit (changes : gmap string (list string)) (c : commit)
  : gmap string (list string) :=
  let entry := render_entry c in
  let commit_type := c_type c in
  if in_list commit_type ["feat"; "add"] then append_to "Added" entry changes
  else if in_list commit_type ["fix"; "bugfix"] then append_to "Fixed" entry changes
  else if in_list commit_type ["refactor"; "perf"; "improve"] then append_to "Changed" entry changes
  else if (commit_type =? "remove")%string then append_to "Removed" entry changes
  else if (commit_type =? "security")%string then append_to "Security" entry changes
  else if (commit_type =? "deprecate")%string then append_to "Deprecated" entry changes
  else if negb (in_list commit_type ["docs"; "test"; "chore"; "style"])
       then append_to "Changed" entry changes
  else changes.

Definition group_commits (commits : list commit) : gmap string (list string) :=
  fold_left add_commit commits empty_changes.

Definition ordered_categories : list string :=
  ["Added"; "Changed"; "Deprecated"; "Removed"; "Fixed"; "Security"].

Definition str_of_nat (n : nat) : string := str_of_N (N.of_nat n).

(** The summary printed after grouping.  The dictionary keeps the order in
    which its keys were inserted. *)
Definition summary (changes : gmap string (list string)) : console :=
  omap (fun category =>
          match changes !! category with
          | Some ((_ :: _) as items) =>
              Some (category +:+ ": " +:+ str_of_nat (length items) +:+ " items")
          | _ => None
          end)
       ordered_categories.

Definition get_changes_from_git (git : git_state)
  : option (gmap string (list string)) * console :=
  let '(commits, out) := parse_commits git in
  match commits with
  | [] => (None, out ++ ["No commits found since last release."])
  | _ :: _ =>
      let changes := group_commits commits in
      (Some changes,
       out ++ ["Found " +:+ str_of_nat (length commits) +:+ " commits to analyze"]
           ++ summary changes)
  end.

(** ** Formatting an entry ([utils.py]) *)

(** The calendar date the clock reports. *)
Record date : Type := mkDate { year : N; month : N; day : N }.

Fixpoint zeros (n : nat) : string :=
  match n with
  | O => EmptyString
  | S k => String "0"%char (zeros k)
  end.

(** ["%0<width>d"] *)
Definition zero_pad (width : nat) (n : N) : string :=
  let digits := str_of_N n in
  zeros (width - String.length digits) +:+ digits.

(** [date.isoformat()] *)
Definition isoformat (d : date) : string :=
  zero_pad 4 (year d) +:+ "-" +:+ zero_pad 2 (month d) +:+ "-" +:+ zero_pad 2 (day d).

(** [entry += f"- {item}\n"] for each item. *)
Definition add_items (entry : string) (items : list string) : string :=
  fold_left (fun entry item => entry +:+ "- " +:+ item +:+ nl) items entry.

(** One turn of the loop over the ordered categories. *)
Definition add_category (changes : gmap string (list string)) (entry category : string)
  : string :=
  match changes !! category with
  | Some ((_ :: _) as items) =>
      add_items (entry +:+ nl +:+ "### " +:+ category +:+ nl +:+ nl) items
  | _ => entry
  end.

Definition format_changelog (changes : gmap string (list string)) (version : string)
    (today : date) : string :=
  let entry := "## [" +:+ version +:+ "] - " +:+ isoformat today +:+ nl in
  fold_left (add_category changes) ordered_categories entry.

(** ** Resolving the next version ([utils.py]) *)

(** [s.strip()] *)
Fixpoint lstrip (s : string) : string :=
  match s with
  | String c r => if is_space c then lstrip r else s
  | EmptyString => EmptyString
  end.

Fixpoint rstrip (s : string) : string :=
  match s with
  | String c r =>
      let r' := rstrip r in
      if is_empty r' && is_space c then EmptyString else String c r'
  | EmptyString => EmptyString
  end.

Definition strip (s : string) : string := rstrip (lstrip s).

Definition validate_version (version : string) : bool :=
  is_ok (semver.parse version).

(** [input()]: the next line typed at the console. *)
Definition input (stdin : list string) : result (string * list string) :=
  match stdin with
  | line :: rest => Ok (line, rest)
  | [] => Raise EOFError
  end.

Definition is_breaking (c : commit) : bool :=
  contains "BREAKING" (c_subject c)
  || (negb (is_empty (c_body c)) && contains "BREAKING CHANGE" (c_body c)).

Definition is_feature (c : commit) : bool := in_list (c_type c) ["feat"; "add"].

(** The body of the [try] in automatic mode, after [parse_commits]. *)
Definition auto_bump (commits : list commit) (current_version : string) : result string :=
  let has_breaking := existsb is_breaking commits in
  let has_features := existsb is_feature commits in
  current_ver ← semver.parse current_version;
  if has_breaking then Ok (semver.to_string (semver.bump_major current_ver))
  else if has_features then Ok (semver.to_string (semver.bump_minor current_ver))
  else Ok (semver.to_string (semver.bump_patch current_ver)).

Definition bump_with (bump : semver.VersionInfo -> semver.VersionInfo)
    (current_version : string) : result string :=
  v ← semver.parse current_version; Ok (semver.to_string (bump v)).

Definition warning_auto : string :=
  "Warning: Could not auto-determine version, defaulting to patch".

Definition menu : console :=
  ["What type of version bump?"; "1. Patch (bug fixes)"; "2. Minor (new features)";
   "3. Major (breaking changes)"; "4. Custom version"].

(** The interactive branch. *)
Definition manual_version (current_version : string) (stdin : list string)
  : result string :=
  '(line, stdin) ← input stdin;
  let choice := strip line in
  if (choice =? "4")%string then
    '(line, _) ← input stdin;
    let custom_version := strip line in
    if validate_version custom_version then Ok custom_version
    else Raise (ValueError "Please enter a valid semantic version")
  else if (choice =? "1")%string then bump_with semver.bump_patch current_version
  else if (choice =? "2")%string then bump_with semver.bump_minor current_version
  else if (choice =? "3")%string then bump_with semver.bump_major current_version
  else Raise (ValueError "Invalid choice").

Definition get_next_version (git : git_state) (stdin : list string)
    (current_version : string) (auto_mode force_mode : bool)
  : result string * console :=
  let out0 :=
    if force_mode && negb auto_mode
    then ["Force mode: Auto-determining version bump from commits..."] else [] in
  let auto_mode := auto_mode || force_mode in
  if negb auto_mode && negb force_mode then
    (manual_version current_version stdin, out0 ++ menu)
  else
    let '(commits, out1) := parse_commits git in
    match auto_bump commits current_version with
    | Ok next => (Ok next, out0 ++ out1)
    | Raise _ =>
        (bump_with semver.bump_patch current_version,
         out0 ++ out1 ++ [warning_auto])
    end.

(** ** Regular-expression replacement ([re.sub])

    The replacement text of [re.sub] is a template: a backslash introduces
    an escape or a group reference, and a malformed template raises before
    any match is looked for.  Group names are read as decimal digits only. *)

Module Template.

Inductive piece : Type :=
  | Lit (text : string)
  | Group (index : N).

Inductive state : Type :=
  | Normal
  | Escape
  | GroupOpen
  | Name (name : string)
  | NameEscape (name : string)
  | Octal (value : N) (more : nat)
  | Digit (c : N)
  | Digit2 (c d : N).

Definition BACKSLASH : ascii := "\"%char.

Definition digit_value (c : ascii) : N := code c - 48.
Definition is_octal (c : ascii) : bool := in_range 48 55 c.

Definition chr (n : N) : string := String (ascii_of_N (n mod 256)) "".

(** [\a \b \f \n \r \t \v \\] *)
Definition escape_char (c : ascii) : option string :=
  if (c =? "a")%char then Some (chr 7)
  else if (c =? "b")%char then Some (chr 8)
  else if (c =? "f")%char then Some (chr 12)
  else if (c =? "n")%char then Some (chr 10)
  else if (c =? "r")%char then Some (chr 13)
  else if (c =? "t")%char then Some (chr 9)
  else if (c =? "v")%char then Some (chr 11)
  else if (c =? BACKSLASH)%char then Some (String BACKSLASH "")
  else None.

Definition addgroup (groups index : N) : result (list piece) :=
  if groups <? index then Raise ReError else Ok [Group index].

Definition group_of_name (groups : N) (name : string) : result (list piece) :=
  if is_empty name then Raise ReError
  else if all_chars is_digit name then addgroup groups (int_of_digits name)
  else if all_chars is_word name then Raise IndexError
  else Raise ReError.

(** A character read outside any escape. *)
Definition plain (c : ascii) : state * list piece :=
  if (c =? BACKSLASH)%char then (Escape, []) else (Normal, [Lit (String c "")]).

Definition step (groups : N) (st : state) (c : ascii) : result (state * list piece) :=
  match st with
  | Normal => Ok (plain c)
  | Escape =>
      if (c =? "g")%char then Ok (GroupOpen, [])
      else if (c =? "0")%char then Ok (Octal 0 2, [])
      else if is_digit c then Ok (Digit (digit_value c), [])
      else
        match escape_char c with
        | Some text => Ok (Normal, [Lit text])
        | None =>
            if is_ascii_letter c then Raise ReError
            else Ok (Normal, [Lit (String BACKSLASH (String c ""))])
        end
  | GroupOpen => if (c =? "<")%char then Ok (Name "", []) else Raise ReError
  | Name name =>
      if (c =? ">")%char then
        ps ← group_of_name groups name; Ok (Normal, ps)
      else if (c =? BACKSLASH)%char then Ok (NameEscape name, [])
      else Ok (Name (name +:+ String c ""), [])
  | NameEscape name => Ok (Name (name +:+ String BACKSLASH (String c "")), [])
  | Octal value (S more) =>
      if is_octal c then Ok (Octal (8 * value + digit_value c) more, [])
      else let '(st', ps) := plain c in Ok (st', Lit (chr value) :: ps)
  | Octal value O =>
      let '(st', ps) := plain c in Ok (st', Lit (chr value) :: ps)
  | Digit d1 =>
      if is_digit c then Ok (Digit2 d1 (digit_value c), [])
      else
        g ← addgroup groups d1;
        let '(st', ps) := plain c in Ok (st', g ++ ps)
  | Digit2 d1 d2 =>
      if (d1 <? 8) && (d2 <? 8) && is_octal c then
        let value := 64 * d1 + 8 * d2 + digit_value c in
        if 255 <? value then Raise ReError else Ok (Normal, [Lit (chr value)])
      else
        g ← addgroup groups (10 * d1 + d2);
        let '(st', ps) := plain c in Ok (st', g ++ ps)
  end.

(** The end of the template. *)
Definition finish (groups : N) (st : state) : result (list piece) :=
  match st with
  | Normal => Ok []
  | Escape | GroupOpen | Name _ | NameEscape _ => Raise ReError
  | Octal value _ => Ok [Lit (chr value)]
  | Digit d1 => addgroup groups d1
  | Digit2 d1 d2 => addgroup groups (10 * d1 + d2)
  end.

Fixpoint parse_from (groups : N) (st : state) (template : string) : result (list piece) :=
  match template with
  | EmptyString => finish groups st
  | String c r =>
      '(st', ps) ← step groups st c;
      rest ← parse_from groups st' r;
      Ok (ps ++ rest)
  end.

(** [parse_template]; [groups] is the number of groups of the pattern. *)
Definition parse (groups : N) (template : string) : result (list piece) :=
  parse_from groups Normal template.

(** The text a match is replaced with.  In both patterns of this program
    every group that can be referred to spans the whole match. *)
Definition expand (pieces : list piece) (matched : string) : string :=
  Py.concat ((fun p => match p with Lit text => text | Group _ => matched end) <$> pieces).

(** [re.sub]: [match_at s] is the text the pattern matches at the start of
    [s], if it does; matches are never empty. *)
Fixpoint sub_from (match_at : string -> option string) (repl : string -> string)
    (skip : nat) (s : string) : string :=
  match s with
  | EmptyString => EmptyString
  | String c r =>
      match skip with
      | S k => sub_from match_at repl k r
      | O =>
          match match_at s with
          | Some m => repl m +:+ sub_from match_at repl (String.length m - 1) r
          | None => String c (sub_from match_at repl 0 r)
          end
      end
  end.

Definition sub (match_at : string -> option string) (repl : string -> string)
    (s : string) : string :=
  sub_from match_at repl 0 s.

End Template.

(** ** Splicing the document ([utils.py]) *)

(** A JSON value as [json.loads] returns it; an object keeps its last
    binding of a key. *)
#[warnings="-register-all"]
Inductive json : Type :=
  | JNull
  | JBool (b : bool)
  | JNumber (literal : string)
  | JString (s : string)
  | JArray (items : list json)
  | JObject (fields : list (string * json)).

(** [d.get(key, default)] *)
Definition json_get (key : string) (fields : list (string * json)) (default : json) : json :=
  match List.find (fun kv => (kv.1 =? key)%string) (rev fields) with
  | Some kv => kv.2
  | None => default
  end.

(** [package.json] in the working directory. *)
Inductive package_json : Type :=
  | NoPackageJson
  | BadPackageJson
  | PackageJson (value : json).

(** The two files of the working directory the tool touches. *)
Record files : Type := mkFiles {
  changelog : option string;
  package : package_json
}.

Definition default_url : string := "https://github.com/org/repo".

(** The repository entry of [package.json], before it is used as text. *)
Definition repository_entry (pkg : package_json) : result json :=
  match pkg with
  | NoPackageJson => Ok (JString default_url)
  | BadPackageJson => Raise JSONDecodeError
  | PackageJson (JObject fields) =>
      match json_get "repository" fields (JObject []) with
      | JObject repo => Ok (json_get "url" repo (JString default_url))
      | JString s => Ok (JString s)
      | _ => Ok (JString default_url)
      end
  | PackageJson _ => Raise AttributeError
  end.

(** [repo_url.replace(".git", "").replace("git+", "")] *)
Definition normalize_url (repo_url : string) : string :=
  replace "git+" "" (replace ".git" "" repo_url).

Definition repository_url (pkg : package_json) : result string :=
  entry ← repository_entry pkg;
  match entry with
  | JString repo_url => Ok (normalize_url repo_url)
  | _ => Raise AttributeError
  end.

Definition not_lf (c : ascii) : bool := negb (c =? LF)%char.

(** [\[Unreleased\]: .+] at the start of [s]. *)
Definition match_unreleased_link (s : string) : option string :=
  if startswith s "[Unreleased]: " then
    let '(target, _) := span not_lf (drop 14 s) in
    if is_empty target then None else Some ("[Unreleased]: " +:+ target)
  else None.

(** [(\[Unreleased\]: .+\n)] at the start of [s]. *)
Definition match_unreleased_line (s : string) : option string :=
  if startswith s "[Unreleased]: " then
    let '(target, r) := span not_lf (drop 14 s) in
    if is_empty target then None
    else if startswith r nl then Some ("[Unreleased]: " +:+ target +:+ nl)
    else None
  else None.

Definition unreleased_link (repo_url version : string) : string :=
  "[Unreleased]: " +:+ repo_url +:+ "/compare/v" +:+ version +:+ "...HEAD".

Definition version_link (repo_url version : string) : string :=
  "[" +:+ version +:+ "]: " +:+ repo_url +:+ "/releases/tag/v" +:+ version.

(** The body of the [try] of [update_version_links]. *)
Definition rewrite_links (pkg : package_json) (content version : string) : result string :=
  repo_url ← repository_url pkg;
  let new_unreleased_link := unreleased_link repo_url version in
  if contains "[Unreleased]:" content then
    t1 ← Template.parse 0 new_unreleased_link;
    let updated_content :=
      Template.sub match_unreleased_link (Template.expand t1) content in
    t2 ← Template.parse 1 ("\1" +:+ version_link repo_url version +:+ nl);
    Ok (Template.sub match_unreleased_line (Template.expand t2) updated_content)
  else
    Ok (content +:+ nl +:+ nl +:+ "## Links" +:+ nl +:+ new_unreleased_link +:+ nl
        +:+ version_link repo_url version +:+ nl).

Definition warning_links : string :=
  "Warning: Could not update version comparison links".

Definition update_version_links (pkg : package_json) (content version : string)
  : string * console :=
  match rewrite_links pkg content version with
  | Ok updated => (updated, [])
  | Raise _ => (content, [warning_links])
  end.

(** Where a run of white space ends when a line feed must close it: just
    after its last line feed. *)
Fixpoint last_lf_end (ws : string) : option nat :=
  match ws with
  | EmptyString => None
  | String c r =>
      match last_lf_end r with
      | Some k => Some (S k)
      | None => if (c =? LF)%char then Some 1%nat else None
      end
  end.

Definition anchor : string := "## [Unreleased]".

(** [## \[Unreleased\]\s*\n] at the start of [s]: the length of the match. *)
Definition match_anchor (s : string) : option nat :=
  if startswith s anchor then
    let '(ws, _) := span is_space (drop (String.length anchor) s) in
    k ← last_lf_end ws; Some (String.length anchor + k)%nat
  else None.

(** [re.search(unreleased_pattern, content)]: [match.end()]. *)
Fixpoint search_anchor (content : string) : option nat :=
  match match_anchor content with
  | Some k => Some k
  | None =>
      match content with
      | EmptyString => None
      | String _ r => S <$> search_anchor r
      end
  end.

Definition error_no_anchor : exn :=
  ValueError "Could not find [Unreleased] section in CHANGELOG.md".

(** [update_changelog_file]: the outcome, the files afterwards, and what
    was printed.  The write itself is taken to succeed: what [write_text]
    can raise once the file is open, an encoding error or an error of the
    file system, is outside this model. *)
Definition update_changelog_file (fs : files) (changelog_entry version : string)
  : result unit * files * console :=
  match changelog fs with
  | None => (Raise FileNotFoundError, fs, [])
  | Some current_content =>
      match search_anchor current_content with
      | None => (Raise error_no_anchor, fs, [])
      | Some match_end =>
          let before_unreleased := take match_end current_content in
          let after_unreleased := drop match_end current_content in
          let new_content :=
            before_unreleased +:+ nl +:+ changelog_entry +:+ nl +:+ after_unreleased in
          let '(updated_content, out) :=
            update_version_links (package fs) new_content version in
          (Ok (), mkFiles (Some updated_content) (package fs), out)
      end
  end.

(** ** The end of [update_changelog] ([update-changelog.py])

    [update_changelog] from the point where the version and the changes
    are known: the check for changes, the preview, the confirmation and
    the write.  An exception ends the run with status 1.  The text of the
    exception in the error line, and the file location and next-step hints
    printed after a successful write, are left out. *)

Inductive outcome : Type :=
  | Returned
  | Exited (status : N).

Definition has_items (changes : gmap string (list string)) (category : string) : bool :=
  match changes !! category with
  | Some (_ :: _) => true
  | _ => false
  end.

(** [not changes or not any(changes.get(key) for key in changes)] *)
Definition no_changes (changes : option (gmap string (list string))) : bool :=
  match changes with
  | None => true
  | Some m =>
      bool_decide (m = ∅)
      || negb (existsb (fun kv => has_items m kv.1) (map_to_list m))
  end.

Definition rule : string := "------------------------------------------------------------".

Definition update_changelog_with (fs : files) (stdin : list string)
    (changes : option (gmap string (list string))) (version : string) (today : date)
    (dry_run force : bool) : outcome * files * console :=
  if no_changes changes then (Returned, fs, ["No changes detected. Aborting."])
  else
    let changelog_entry := format_changelog (default ∅ changes) version today in
    let out := ["Preview of changelog entry:"; rule; changelog_entry; rule] in
    if dry_run then (Returned, fs, out ++ ["Dry run complete. No files were modified."])
    else
      let write (out : console) :=
        match update_changelog_file fs changelog_entry version with
        | (Ok _, fs', out') =>
            (Returned, fs',
             out ++ out' ++ ["Successfully updated CHANGELOG.md for version " +:+ version])
        | (Raise _, fs', out') =>
            (Exited 1, fs', out ++ out' ++ ["Error updating changelog"])
        end in
      if negb force then
        match input stdin with
        | Ok (line, _) =>
            let confirm := lower (strip line) in
            if in_list confirm ["y"; "yes"] then write out
            else (Returned, fs, out ++ ["Changelog update cancelled."])
        | Raise _ => (Exited 1, fs, out ++ ["Error updating changelog"])
        end
      else write (out ++ ["Force mode enabled - automatically proceeding..."]).

(** ** The vocabulary of the specification *)

Inductive category : Type :=
  | Added
  | Changed
  | Deprecated
  | Removed
  | Fixed
  | Security.

#[global] Instance category_eq_dec : EqDecision category.
Proof. solve_decision. Defined.

Definition category_name (k : category) : string :=
  match k with
  | Added => "Added"
  | Changed => "Changed"
  | Deprecated => "Deprecated"
  | Removed => "Removed"
  | Fixed => "Fixed"
  | Security => "Security"
  end.

(** The routing table of the specification: the category a change of a
    given type is listed under, if any. *)
Definition route (type : string) : option category :=
  if in_list type ["feat"; "add"] then Some Added
  else if in_list type ["fix"; "bugfix"] then Some Fixed
  else if in_list type ["refactor"; "perf"; "improve"] then Some Changed
  else if in_list type ["remove"] then Some Removed
  else if in_list type ["security"] then Some Security
  else if in_list type ["deprecate"] then Some Deprecated
  else if in_list type ["docs"; "test"; "chore"; "style"] then None
  else Some Changed.

Definition routed_to (k : category) (c : commit) : bool :=
  bool_decide (route (c_type c) = Some k).

(** Reading the formatted entry back, line by line. *)
Definition is_category_header (line : string) : bool := startswith line "### ".
Definition is_item (line : string) : bool := startswith line "- ".

Fixpoint skip_blank (lines : list string) : list string :=
  match lines with
  | line :: rest => if is_empty line then skip_blank rest else lines
  | [] => []
  end.

(** Every category header is followed, blank lines apart, by an item. *)
Fixpoint well_sectioned (lines : list string) : bool :=
  match lines with
  | [] => true
  | line :: rest =>
      (if is_category_header line then
         match skip_blank rest with
         | next :: _ => is_item next
         | [] => false
         end
       else true)
      && well_sectioned rest
  end.

Definition single_line (s : string) : Prop := all_chars not_lf s = true.

(** The lines of an entry, as the specification lays them out: the version
    header, then for each category with items, in the fixed order, a blank
    line, the category header, a blank line and one line per item. *)
Definition unlines (lines : list string) : string :=
  concat ((fun line => line +:+ nl) <$> lines).

Definition section_lines (changes : gmap string (list string)) (category : string)
  : list string :=
  match changes !! category with
  | Some ((_ :: _) as items) =>
      [""; "### " +:+ category; ""] ++ ((fun item => "- " +:+ item) <$> items)
  | _ => []
  end.

Definition entry_lines (changes : gmap string (list string)) (version : string)
    (today : date) : list string :=
  ("## [" +:+ version +:+ "] - " +:+ isoformat today)
  :: flat_map (section_lines changes) ordered_categories.

(** The text [## \[Unreleased\]\s*\n] describes: the anchor, white space,
    and a line feed. *)
Definition anchored (content : string) : Prop :=
  exists before ws after,
    content = before +:+ anchor +:+ ws +:+ nl +:+ after
    /\ all_chars is_space ws = true.

(** The normalisation the specification describes: a trailing ".git" and a
    leading "git+" are removed, and nothing else. *)
Definition removesuffix (suffix s : string) : string :=
  let n := (String.length s - String.length suffix)%nat in
  if (String.length suffix <=? String.length s)%nat && (drop n s =? suffix)%string
  then take n s else s.

Definition removeprefix (prefix s : string) : string :=
  if startswith s prefix then drop (String.length prefix) s else s.

Definition strip_git_affixes (repo_url : string) : string :=
  removeprefix "git+" (removesuffix ".git" repo_url).

(** ** Examples *)

Definition scenario_log : list git_commit :=
  [mkGitCommit "1f0c2d3e4a5b6c7d8e9f" "feat: add login" "dev";
   mkGitCommit "2a1b3c4d5e6f7a8b9c0d" "fix: crash on start #42" "dev";
   mkGitCommit "3b2c4d5e6f7a8b9c0d1e" "docs: typo" "dev"].

Definition breaking_log : list git_commit :=
  [mkGitCommit "4c3d5e6f7a8b9c0d1e2f" "BREAKING: remove old API" "dev"].

Definition some_day : date := mkDate 2024 3 7.

Definition pages_package : package_json :=
  PackageJson (JObject
    [("version", JString "1.0.0");
     ("repository", JObject
        [("type", JString "git");
         ("url", JString "git+https://github.com/octo/octo.github.io.git")])]).

Definition null_url_package : package_json :=
  PackageJson (JObject [("repository", JObject [("url", JNull)])]).

Definition small_document : string :=
  "# Changelog" +:+ nl +:+ nl +:+ "## [Unreleased]" +:+ nl +:+ nl
  +:+ "## [1.0.0] - 2020-01-01" +:+ nl +:+ nl +:+ "### Added" +:+ nl +:+ nl
  +:+ "- first release" +:+ nl.

Definition linked_document : string :=
  small_document +:+ nl
  +:+ "[Unreleased]: https://github.com/org/repo/compare/v1.0.0...HEAD" +:+ nl
  +:+ "[1.0.0]: https://github.com/org/repo/releases/tag/v1.0.0" +:+ nl.

Definition multi_line_changes : gmap string (list string) :=
  {["Added" := ["x" +:+ nl +:+ "### Fixed"]]}.

(** ** Manual entry and the whole of [update_changelog] ([update-changelog.py])

    The prompts of [input] are not printed lines and are left out; so are
    the blank lines that pad the messages, and the traceback that
    [verbose] adds to an error. *)

Definition descriptions : list (string * string) :=
  [("Added", "new features or capabilities");
   ("Changed", "changes in existing functionality");
   ("Deprecated", "features that will be removed in future versions");
   ("Removed", "features that have been removed");
   ("Fixed", "bug fixes");
   ("Security", "security-related changes")].

(** The [while True] loop of one category: items are read until a blank
    line; what is left of the console input is returned with them. *)
Fixpoint read_items (stdin : list string) : result (list string * list string) :=
  match stdin with
  | [] => Raise EOFError
  | line :: rest =>
      let item := strip line in
      if is_empty item then Ok ([], rest)
      else
        '(items, rest') ← read_items rest;
        Ok (item :: items, rest')
  end.

(** The loop over the categories. *)
Fixpoint read_categories (categories : list (string * string))
    (changes : gmap string (list string)) (stdin : list string)
  : result (gmap string (list string) * list string) * console :=
  match categories with
  | [] => (Ok (changes, stdin), [])
  | (category, description) :: more =>
      let heading := category +:+ " (" +:+ description +:+ "):" in
      match read_items stdin with
      | Raise e => (Raise e, [heading])
      | Ok (items, rest) =>
          let '(r, out) := read_categories more (<[category := items]> changes) rest in
          (r, heading :: out)
      end
  end.

Definition get_changes_manually (stdin : list string)
  : result (gmap string (list string) * list string) * console :=
  let '(r, out) := read_categories descriptions empty_changes stdin in
  (r,
   "Enter changes for each category (press Enter with empty line to finish each section)"
   :: out).

(** [package_json.get("version", "0.1.0")], or ["0.1.0"] without the file. *)
Definition current_version_of (pkg : package_json) : result json :=
  match pkg with
  | NoPackageJson => Ok (JString "0.1.0")
  | BadPackageJson => Raise JSONDecodeError
  | PackageJson (JObject fields) => Ok (json_get "version" fields (JString "0.1.0"))
  | PackageJson _ => Raise AttributeError
  end.

(** The value a call returns, when it returns. *)
Definition returned {A : Type} (r : result A) : option A :=
  match r with
  | Ok a => Some a
  | Raise _ => None
  end.

(** [get_next_version] on a current version that is not text: every
    [semver.VersionInfo.parse(current_version)] raises [TypeError], so only
    the custom choice of the interactive branch returns.  [None] stands for
    the exception. *)
Definition get_next_version_not_text (git : git_state) (stdin : list string)
    (auto_mode force_mode : bool) : option string * console :=
  let out0 :=
    if force_mode && negb auto_mode
    then ["Force mode: Auto-determining version bump from commits..."] else [] in
  let auto_mode := auto_mode || force_mode in
  if negb auto_mode && negb force_mode then
    (match input stdin with
     | Ok (line, stdin) =>
         if (strip line =? "4")%string then
           match input stdin with
           | Ok (line, _) =>
               let custom_version := strip line in
               if validate_version custom_version then Some custom_version else None
           | Raise _ => None
           end
         else None
     | Raise _ => None
     end,
     out0 ++ menu)
  else (None, out0 ++ (parse_commits git).2 ++ [warning_auto]).

(** The console input left after the interactive branch of
    [get_next_version] has returned: the choice is read, and the custom
    version after choice 4. *)
Definition stdin_after_version (stdin : list string) : list string :=
  match stdin with
  | line :: rest => if (strip line =? "4")%string then List.tl rest else rest
  | [] => []
  end.

(** The step [if not version: ... version = get_next_version(...)]. *)
Definition determine_version (fs : files) (git : git_state) (stdin : list string)
    (version : option string) (auto force : bool)
  : option string * list string * console :=
  match version with
  | Some (String c r) => (Some (String c r), stdin, [])
  | _ =>
      let rest := if negb auto && negb force then stdin_after_version stdin else stdin in
      match current_version_of (package fs) with
      | Raise _ => (None, stdin, [])
      | Ok (JString current_version) =>
          let '(r, out) := get_next_version git stdin current_version auto force in
          (returned r, rest, out)
      | Ok _ =>
          let '(r, out) := get_next_version_not_text git stdin auto force in
          (r, rest, out)
      end
  end.

Definition update_changelog (fs : files) (git : git_state) (stdin : list string)
    (today : date) (version : option string)
    (auto manual dry_run verbose force : bool) : outcome * files * console :=
  let out0 := ["CDEV Changelog Updater"] in
  let failed (out : console) := (Exited 1, fs, out ++ ["Error updating changelog"]) in
  match changelog fs with
  | None => failed out0
  | Some _ =>
      let '(resolved, stdin, out1) := determine_version fs git stdin version auto force in
      match resolved with
      | None => failed (out0 ++ out1)
      | Some version =>
          if negb (validate_version version) then failed (out0 ++ out1)
          else
            let out2 := out0 ++ out1 ++ ["Updating changelog for version " +:+ version] in
            if auto || force then
              let out3 :=
                (if force && manual
                 then ["Force mode overrides manual mode - using auto mode"] else [])
                ++ ["Analyzing git commits since last release..."] in
              let '(changes, out4) := get_changes_from_git git in
              let '(o, fs', out5) :=
                update_changelog_with fs stdin changes version today dry_run force in
              (o, fs', out2 ++ out3 ++ out4 ++ out5)
            else
              match get_changes_manually stdin with
              | (Ok (changes, stdin), out4) =>
                  let '(o, fs', out5) :=
                    update_changelog_with fs stdin (Some changes) version today dry_run force in
                  (o, fs', out2 ++ ["Manual entry mode"] ++ out4 ++ out5)
              | (Raise _, out4) => failed (out2 ++ ["Manual entry mode"] ++ out4)
              end
      end
  end.

(** [main]: automatic mode is the default. *)
Definition main (fs : files) (git : git_state) (stdin : list string) (today : date)
    (version : option string) (auto manual dry_run verbose force : bool)
  : outcome * files * console :=
  let auto := if negb auto && negb manual then true else auto in
  update_changelog fs git stdin today version auto manual dry_run verbose force.

(** ** The inline functions of [update-changelog.py]

    When [utils] cannot be imported the script defines minimal versions of
    its functions.  [validate_version] and [format_changelog] have the same
    text as in [utils.py]; the three others differ. *)

Module Inline.

(** The dictionaries have the keys ["hash"], ["subject"] and ["type"] only;
    the empty body and author stand for the absent keys. *)
Definition parse_commits (git : git_state) : list commit :=
  match git with
  | GitLog commits =>
      (fun g => mkCommit (take 8 (hexsha g)) "change" None (first_line (message g))
                         "" "" None)
        <$> List.filter (fun g => negb (startswith (first_line (message g)) "Merge "))
                        commits
  | GitFailure _ => []
  end.

(** As in [utils.py] without the links; the write is taken to succeed. *)
Definition update_changelog_file (fs : files) (changelog_entry version : string)
  : result unit * files :=
  match changelog fs with
  | None => (Raise FileNotFoundError, fs)
  | Some current_content =>
      match search_anchor current_content with
      | None => (Raise error_no_anchor, fs)
      | Some match_end =>
          let before_unreleased := take match_end current_content in
          let after_unreleased := drop match_end current_content in
          let new_content :=
            before_unreleased +:+ nl +:+ changelog_entry +:+ nl +:+ after_unreleased in
          (Ok (), mkFiles (Some new_content) (package fs))
      end
  end.

Definition menu : console :=
  ["Version bump options:"; "1. Patch (bug fixes)"; "2. Minor (new features)";
   "3. Major (breaking changes)"; "4. Custom version"].

Definition get_next_version (stdin : list string) (current_version : string)
    (auto_mode force_mode : bool) : result string * console :=
  if force_mode || auto_mode then
    (bump_with semver.bump_patch current_version, [])
  else
    (('(line, stdin) ← input stdin;
      let choice := strip line in
      current_ver ← semver.parse current_version;
      if (choice =? "1")%string then Ok (semver.to_string (semver.bump_patch current_ver))
      else if (choice =? "2")%string then Ok (semver.to_string (semver.bump_minor current_ver))
      else if (choice =? "3")%string then Ok (semver.to_string (semver.bump_major current_ver))
      else if (choice =? "4")%string then
        '(line, _) ← input stdin;
        let custom := strip line in
        if validate_version custom then Ok custom
        else Raise (ValueError "Invalid version format")
      else Raise (ValueError "Invalid choice")),
     menu).

(** [get_changes_from_git] of the script, over the inline [parse_commits]. *)
Definition get_changes_from_git (git : git_state)
  : option (gmap string (list string)) * console :=
  match parse_commits git with
  | [] => (None, ["No commits found since last release."])
  | (_ :: _) as commits =>
      let changes := group_commits commits in
      (Some changes,
       ["Found " +:+ str_of_nat (length commits) +:+ " commits to analyze"]
       ++ summary changes)
  end.

End Inline.

(** ** Checking the structure of a changelog ([utils.py]) *)

(** [validate_changelog_structure]: the file as read, [None] when reading
    it raises.  Each required pattern is a literal text. *)
Definition validate_changelog_structure (file : option string) : bool :=
  match file with
  | Some content =>
      forallb (fun pattern => contains pattern content)
              ["# Changelog"; "## [Unreleased]"; "The format is based on [Keep a Changelog]"]
  | None => false
  end.

(** ** Repository information ([utils.py])

    [get_repository_info] searches the URL of the remote [origin] for
    [github\.com[:/](.+?)/(.+?)(?:\.git)?$].  The URL is [None] when reading
    it raises. *)

Record repository_info : Type := mkRepositoryInfo {
  owner : string;
  repo : string;
  url : string
}.

(** What [(?:\.git)?$] accepts: the end of the text, which [$] also finds
    before a line feed that ends it. *)
Definition at_end (rest : string) : bool :=
  in_list rest [".git"; ".git" +:+ nl; ""; nl].

(** [(.+?)(?:\.git)?$]: the shortest run of one or more characters other
    than a line feed after which the text ends. *)
Fixpoint match_repo (taken rest : string) : option string :=
  match rest with
  | "" => None
  | String c rest' =>
      if not_lf c then
        let taken := taken +:+ String c "" in
        if at_end rest' then Some taken else match_repo taken rest'
      else None
  end.

(** [(.+?)/(.+?)(?:\.git)?$]: the shortest run of one or more characters
    other than a line feed that a slash follows and after which the rest
    matches. *)
Fixpoint match_owner (taken rest : string) : option (string * string) :=
  match rest with
  | "" => None
  | String c rest' =>
      if not_lf c then
        let taken := taken +:+ String c "" in
        let longer := match_owner taken rest' in
        match rest' with
        | String d after =>
            if (d =? "/")%char then
              match match_repo "" after with
              | Some repo_name => Some (taken, repo_name)
              | None => longer
              end
            else longer
        | "" => longer
        end
      else None
  end.

(** The whole pattern at the start of [s]. *)
Definition match_remote (s : string) : option (string * string) :=
  if startswith s "github.com" then
    match drop 10 s with
    | String c rest =>
        if (c =? ":")%char || (c =? "/")%char then match_owner "" rest else None
    | "" => None
    end
  else None.

(** [re.search]: the first position at which the pattern matches. *)
Fixpoint search_remote (s : string) : option (string * string) :=
  match match_remote s with
  | Some groups => Some groups
  | None =>
      match s with
      | "" => None
      | String _ r => search_remote r
      end
  end.

Definition get_repository_info (remote_url : option string) : option repository_info :=
  match remote_url with
  | None => None
  | Some remote_url =>
      match search_remote remote_url with
      | Some (owner, repo_name) =>
          Some (mkRepositoryInfo owner repo_name
                  ("https://github.com/" +:+ owner +:+ "/" +:+ repo_name))
      | None => None
      end
  end.

(** ** Vocabulary of the further properties *)

Definition no_backslash (s : string) : Prop :=
  all_chars (fun c => negb (c =? Template.BACKSLASH)%char) s = true.

(** An item as [get_changes_manually] keeps it: not blank, and without
    white space around it. *)
Definition clean_item (item : string) : Prop :=
  strip item = item /\ item <> "".

(** The lines typed for one category: its items and the blank line that
    closes it. *)
Definition typed (items : list string) : list string := items ++ [""].

(** A character of an owner name: neither a slash nor a line feed. *)
Definition owner_char (c : ascii) : bool := negb (c =? "/")%char && not_lf c.

(** * Properties *)

(** ** Facts about strings *)

Section StringFacts.

Lemma append_cons c s t : String c s +:+ t = String c (s +:+ t).
Proof. reflexivity. Qed.

Lemma append_empty_l s : "" +:+ s = s.
Proof. reflexivity. Qed.

Lemma append_empty_r s : s +:+ "" = s.
Proof. induction s as [|c s IH]; [done|]. by rewrite append_cons, IH. Qed.

Lemma append_assoc s t u : (s +:+ t) +:+ u = s +:+ (t +:+ u).
Proof. induction s as [|c s IH]; [done|]. by rewrite !append_cons, IH. Qed.

Lemma all_chars_append p s t :
  all_chars p (s +:+ t) = all_chars p s && all_chars p t.
Proof.
  induction s as [|c s IH]; [done|].
  rewrite append_cons. simpl. rewrite IH. by rewrite andb_assoc.
Qed.

Lemma span_all p s t :
  all_chars p s = true ->
  span p (s +:+ t) = (s +:+ (span p t).1, (span p t).2).
Proof.
  induction s as [|c s IH]; intros H.
  - rewrite append_empty_l. by destruct (span p t).
  - simpl in H. apply andb_true_iff in H as [Hc Hs].
    rewrite append_cons. simpl. rewrite Hc, (IH Hs). by rewrite append_cons.
Qed.

Lemma span_stop p s c t :
  all_chars p s = true -> p c = false ->
  span p (s +:+ String c t) = (s, String c t).
Proof.
  intros Hs Hc. rewrite (span_all _ _ _ Hs). simpl. rewrite Hc. simpl.
  by rewrite append_empty_r.
Qed.

Lemma span_whole p s : all_chars p s = true -> span p s = (s, "").
Proof.
  intros Hs. rewrite <- (append_empty_r s) at 1. rewrite (span_all _ _ _ Hs).
  simpl. by rewrite append_empty_r.
Qed.

Lemma span_split p s : s = (span p s).1 +:+ (span p s).2.
Proof.
  induction s as [|c s IH]; [done|].
  simpl. destruct (p c); [|done].
  destruct (span p s) as [a b]. simpl in *. by rewrite append_cons, <- IH.
Qed.

Lemma span_all_chars p s : all_chars p (span p s).1 = true.
Proof.
  induction s as [|c s IH]; [done|].
  simpl. destruct (p c) eqn:Hc; [|done].
  destruct (span p s) as [a b]. simpl in *. by rewrite Hc.
Qed.

Lemma prefix_split p s :
  String.prefix p s = true -> s = p +:+ drop (String.length p) s.
Proof.
  revert s. induction p as [|c p IH]; intros s H; [done|].
  destruct s as [|d s]; [done|]. simpl in H.
  destruct (ascii_dec c d) as [->|]; [|done].
  rewrite append_cons. simpl. by rewrite <- (IH s H).
Qed.

Lemma prefix_app p s : String.prefix p (p +:+ s) = true.
Proof.
  induction p as [|c p IH]; [by destruct s|].
  rewrite append_cons. simpl. by destruct (ascii_dec c c).
Qed.

Lemma contains_unfold needle hay :
  contains needle hay =
  String.prefix needle hay
  || match hay with EmptyString => false | String _ r => contains needle r end.
Proof. by destruct hay. Qed.

Lemma contains_app needle before after :
  contains needle (before +:+ needle +:+ after) = true.
Proof.
  induction before as [|c b IH].
  - by rewrite append_empty_l, contains_unfold, prefix_app.
  - rewrite append_cons, contains_unfold, IH. apply orb_true_r.
Qed.

Lemma length_append s t :
  String.length (s +:+ t) = (String.length s + String.length t)%nat.
Proof. induction s as [|c s IH]; [done|]. rewrite append_cons. simpl. by rewrite IH. Qed.

Lemma take_length_append s t : take (String.length s) (s +:+ t) = s.
Proof. induction s as [|c s IH]; [by destruct t|]. rewrite append_cons. simpl. by rewrite IH. Qed.

Lemma drop_length_append s t : drop (String.length s) (s +:+ t) = t.
Proof. induction s as [|c s IH]; [done|]. by rewrite append_cons. Qed.

Lemma is_empty_true s : is_empty s = true -> s = "".
Proof. by destruct s. Qed.

End StringFacts.

(** ** Facts about decimal numerals *)

Section DecimalFacts.

Lemma string_of_uint_digits d : all_chars is_digit (NilEmpty.string_of_uint d) = true.
Proof. induction d; simpl; try done; by rewrite IHd. Qed.

Lemma str_of_N_digits n : all_chars is_digit (str_of_N n) = true.
Proof. apply string_of_uint_digits. Qed.

Lemma int_of_str n : int_of_digits (str_of_N n) = n.
Proof.
  unfold int_of_digits, str_of_N. rewrite NilEmpty.usu. apply DecimalN.Unsigned.of_to.
Qed.

Lemma to_uint_normal n : Decimal.unorm (N.to_uint n) = N.to_uint n.
Proof.
  rewrite <- (DecimalN.Unsigned.of_to n) at 2.
  by rewrite DecimalN.Unsigned.to_of.
Qed.

Lemma str_of_N_numeric n : semver.numeric_ok (str_of_N n) = true.
Proof.
  unfold str_of_N. pose proof (to_uint_normal n) as Hn.
  destruct (N.to_uint n) as [|d|d|d|d|d|d|d|d|d|d] eqn:E;
    try (simpl; apply orb_true_r).
  - by apply DecimalFacts.unorm_nonnil in Hn.
  - destruct d; try done.
    all: exfalso; rewrite DecimalFacts.unorm_D0 in Hn;
      match type of Hn with
      | Decimal.unorm ?u = _ =>
          pose proof (DecimalFacts.nb_digits_unorm u ltac:(done)) as Hlen;
          rewrite Hn in Hlen; simpl in Hlen; lia
      end.
Qed.

End DecimalFacts.

(** ** Facts about versions *)

Section VersionFacts.

Lemma numeric_field_str n c r :
  is_digit c = false ->
  semver.numeric_field (str_of_N n +:+ String c r) = Some (n, String c r).
Proof.
  intros Hc. unfold semver.numeric_field.
  rewrite (span_stop _ _ _ _ (str_of_N_digits n) Hc).
  by rewrite str_of_N_numeric, int_of_str.
Qed.

Lemma numeric_field_str_end n : semver.numeric_field (str_of_N n) = Some (n, "").
Proof.
  unfold semver.numeric_field. rewrite (span_whole _ _ (str_of_N_digits n)).
  by rewrite str_of_N_numeric, int_of_str.
Qed.

(** Printing a version without prerelease and build parts and parsing it
    back gives the version. *)
Lemma parse_to_string a b c :
  semver.parse (semver.to_string (semver.mkVersion a b c None None))
  = Ok (semver.mkVersion a b c None None).
Proof.
  unfold semver.parse, semver.parse_opt, semver.to_string. simpl.
  change ("" +:+ "") with "". rewrite append_empty_r.
  change ("." +:+ str_of_N c) with (String "."%char (str_of_N c)).
  change ("." +:+ ?x) with (String "."%char x).
  rewrite numeric_field_str by done. simpl.
  rewrite numeric_field_str by done. simpl.
  by rewrite numeric_field_str_end.
Qed.

Lemma bump_major_gt v : semver.gt (semver.bump_major v) (semver.bump_minor v).
Proof.
  unfold semver.gt, semver.compare, semver.cmp_core. simpl.
  by replace (semver.major v + 1 ?= semver.major v) with Gt
    by (symmetry; apply N.compare_gt_iff; lia).
Qed.

Lemma bump_minor_gt v : semver.gt (semver.bump_minor v) (semver.bump_patch v).
Proof.
  unfold semver.gt, semver.compare, semver.cmp_core. simpl.
  rewrite N.compare_refl.
  by replace (semver.minor v + 1 ?= semver.minor v) with Gt
    by (symmetry; apply N.compare_gt_iff; lia).
Qed.

Lemma bump_patch_gt v : semver.gt (semver.bump_patch v) v.
Proof.
  unfold semver.gt, semver.compare, semver.cmp_core. simpl.
  rewrite !N.compare_refl.
  by replace (semver.patch v + 1 ?= semver.patch v) with Gt
    by (symmetry; apply N.compare_gt_iff; lia).
Qed.

Lemma bump_minor_above v : semver.gt (semver.bump_minor v) v.
Proof.
  unfold semver.gt, semver.compare, semver.cmp_core. simpl.
  rewrite N.compare_refl.
  by replace (semver.minor v + 1 ?= semver.minor v) with Gt
    by (symmetry; apply N.compare_gt_iff; lia).
Qed.

Lemma bump_major_above v : semver.gt (semver.bump_major v) v.
Proof.
  unfold semver.gt, semver.compare, semver.cmp_core. simpl.
  by replace (semver.major v + 1 ?= semver.major v) with Gt
    by (symmetry; apply N.compare_gt_iff; lia).
Qed.

(** A bump of a version that parses is printed as a version above it. *)
Lemma bump_with_above bump current_version v next :
  (forall w, exists a b c, bump w = semver.mkVersion a b c None None) ->
  semver.gt (bump v) v ->
  semver.parse current_version = Ok v ->
  bump_with bump current_version = Ok next ->
  exists v', semver.parse next = Ok v' /\ semver.gt v' v.
Proof.
  intros Hplain Habove Hv. unfold bump_with. rewrite Hv. simpl. intros [= <-].
  exists (bump v). split; [|done].
  destruct (Hplain v) as (a & b & c & ->). apply parse_to_string.
Qed.

End VersionFacts.

(** ** Resolving the next version *)

Section NextVersion.

(** In automatic mode the interactive branch is not taken. *)
Lemma get_next_version_automatic git stdin current_version auto_mode force_mode :
  auto_mode || force_mode = true ->
  get_next_version git stdin current_version auto_mode force_mode =
  let banner :=
    if force_mode && negb auto_mode
    then ["Force mode: Auto-determining version bump from commits..."] else [] in
  match auto_bump (parse_commits git).1 current_version with
  | Ok next => (Ok next, banner ++ (parse_commits git).2)
  | Raise _ =>
      (bump_with semver.bump_patch current_version,
       banner ++ (parse_commits git).2 ++ [warning_auto])
  end.
Proof.
  intros Hmode. unfold get_next_version. rewrite Hmode. simpl.
  by destruct (parse_commits git) as [commits out1].
Qed.

Lemma auto_bump_parsed commits current_version v :
  semver.parse current_version = Ok v ->
  auto_bump commits current_version =
  Ok (semver.to_string
        (if existsb is_breaking commits then semver.bump_major v
         else if existsb is_feature commits then semver.bump_minor v
         else semver.bump_patch v)).
Proof.
  intros Hv. unfold auto_bump. rewrite Hv. simpl.
  by destruct (existsb is_breaking commits), (existsb is_feature commits).
Qed.

Lemma auto_bump_unparsed commits current_version e :
  semver.parse current_version = Raise e ->
  auto_bump commits current_version = Raise e
  /\ bump_with semver.bump_patch current_version = Raise e.
Proof. intros He. unfold auto_bump, bump_with. by rewrite He. Qed.

End NextVersion.

(** C1 (code check).  The commit "BREAKING: remove old API" matches the
    conventional pattern, so its parsed subject is "remove old API" and its
    type is "breaking"; the breaking-change test reads the parsed subject and
    finds no marker.  With current version 2.0.0 automatic mode therefore
    answers 2.0.1, where the scenario expects 3.0.0.  The same text written
    "BREAKING CHANGE: remove old API" is not conventional, keeps its subject
    and resolves to 3.0.0. *)
Theorem breaking_prefix_resolves_to_patch :
  (parse_commits (GitLog breaking_log)).1
    = [mkCommit "4c3d5e6f" "breaking" None "remove old API" "" "dev" None]
  /\ existsb is_breaking (parse_commits (GitLog breaking_log)).1 = false
  /\ get_next_version (GitLog breaking_log) [] "2.0.0" true false = (Ok "2.0.1", [])
  /\ get_next_version
       (GitLog [mkGitCommit "4c3d5e6f7a8b9c0d1e2f" "BREAKING CHANGE: remove old API" "dev"])
       [] "2.0.0" true false = (Ok "3.0.0", []).
Proof. repeat split; vm_compute; reflexivity. Qed.

(** C2, as stated, fails: when the current version does not parse, the
    fallback parses the same text again and the operation raises. *)
Lemma unparsable_version_raises :
  semver.parse "1.2" = Raise (ValueError "1.2 is not valid SemVer string")
  /\ get_next_version (GitLog scenario_log) [] "1.2" true false
     = (Raise (ValueError "1.2 is not valid SemVer string"), [warning_auto])
  /\ is_ok (get_next_version (GitLog scenario_log) [] "1.2" true false).1 = false.
Proof. repeat split; vm_compute; reflexivity. Qed.

(** C2 (amended).  In automatic mode, when the current version parses, the
    next version is the major bump if any change is breaking, else the minor
    bump if any change has type feat or add, else the patch bump, and no
    warning is printed.  When the current version does not parse, the warning
    is printed and the operation raises the parse error: no version is
    returned. *)
Theorem automatic_version_rule git stdin current_version auto_mode force_mode :
  auto_mode || force_mode = true ->
  let commits := (parse_commits git).1 in
  let banner :=
    if force_mode && negb auto_mode
    then ["Force mode: Auto-determining version bump from commits..."] else [] in
  match semver.parse current_version with
  | Ok v =>
      get_next_version git stdin current_version auto_mode force_mode =
      (Ok (semver.to_string
             (if existsb is_breaking commits then semver.bump_major v
              else if existsb is_feature commits then semver.bump_minor v
              else semver.bump_patch v)),
       banner ++ (parse_commits git).2)
  | Raise e =>
      get_next_version git stdin current_version auto_mode force_mode =
      (Raise e, banner ++ (parse_commits git).2 ++ [warning_auto])
  end.
Proof.
  intros Hmode commits banner.
  rewrite (get_next_version_automatic _ _ _ _ _ Hmode).
  destruct (semver.parse current_version) as [v|e] eqn:Hv.
  - by rewrite (auto_bump_parsed _ _ _ Hv).
  - destruct (auto_bump_unparsed (parse_commits git).1 _ _ Hv) as [-> ->]. done.
Qed.

Lemma automatic_version_rule_witness :
  get_next_version (GitLog scenario_log) [] "1.2.3" true false = (Ok "1.3.0", []).
Proof.
  exact (automatic_version_rule (GitLog scenario_log) [] "1.2.3" true false eq_refl).
Defined.

(** In automatic mode the version resolved from a version that parses is a
    bump of it. *)
Lemma automatic_version_above git stdin current_version auto_mode force_mode v next out :
  auto_mode || force_mode = true ->
  semver.parse current_version = Ok v ->
  get_next_version git stdin current_version auto_mode force_mode = (Ok next, out) ->
  exists v', semver.parse next = Ok v' /\ semver.gt v' v.
Proof.
  intros Hmode Hv Hnext.
  rewrite (get_next_version_automatic _ _ _ _ _ Hmode) in Hnext. simpl in Hnext.
  rewrite (auto_bump_parsed _ _ _ Hv) in Hnext. injection Hnext as <- _.
  destruct (existsb is_breaking _); [|destruct (existsb is_feature _)].
  - exists (semver.bump_major v). split; [apply parse_to_string|apply bump_major_above].
  - exists (semver.bump_minor v). split; [apply parse_to_string|apply bump_minor_above].
  - exists (semver.bump_patch v). split; [apply parse_to_string|apply bump_patch_gt].
Qed.

(** So is the version of every interactive choice other than 4. *)
Lemma manual_version_above current_version line rest v next :
  strip line <> "4" ->
  semver.parse current_version = Ok v ->
  manual_version current_version (line :: rest) = Ok next ->
  exists v', semver.parse next = Ok v' /\ semver.gt v' v.
Proof.
  intros Hchoice Hv. unfold manual_version. cbn [input mbind result_bind].
  apply String.eqb_neq in Hchoice. rewrite Hchoice.
  destruct (strip line =? "1")%string;
    [by eapply (bump_with_above semver.bump_patch); eauto using bump_patch_gt|].
  destruct (strip line =? "2")%string;
    [by eapply (bump_with_above semver.bump_minor); eauto using bump_minor_above|].
  destruct (strip line =? "3")%string;
    [by eapply (bump_with_above semver.bump_major); eauto using bump_major_above|].
  done.
Qed.

(** C9, as stated, fails: the interactive choice 4 returns the version
    that is typed without comparing it with the current version, so the
    resolved version can be below it. *)
Lemma custom_version_decreases :
  get_next_version (GitLog scenario_log) ["4"; "0.0.1"] "1.2.3" false false
  = (Ok "0.0.1", menu)
  /\ semver.parse "1.2.3" = Ok (semver.mkVersion 1 2 3 None None)
  /\ semver.parse "0.0.1" = Ok (semver.mkVersion 0 0 1 None None)
  /\ semver.gt (semver.mkVersion 1 2 3 None None) (semver.mkVersion 0 0 1 None None)
  /\ ~ (forall git stdin current_version auto_mode force_mode next out v v',
          semver.parse current_version = Ok v ->
          get_next_version git stdin current_version auto_mode force_mode = (Ok next, out) ->
          semver.parse next = Ok v' ->
          semver.compare v' v <> Lt).
Proof.
  split; [by vm_compute|]. split; [by vm_compute|]. split; [by vm_compute|].
  split; [by vm_compute|].
  intros Hnever.
  apply (Hnever (GitLog scenario_log) ["4"; "0.0.1"] "1.2.3" false false "0.0.1" menu
           (semver.mkVersion 1 2 3 None None) (semver.mkVersion 0 0 1 None None));
    by vm_compute.
Qed.

(** C9 (amended).  Bumping is strictly monotonic in the precedence order of
    versions: major bump > minor bump > patch bump > the version itself; so
    the version resolved from a current version that parses is strictly
    above it whenever it is resolved by a bump, that is in automatic or
    force mode and for every interactive choice other than 4.  The
    interactive choice 4 returns the custom version that is typed, when it
    is a valid version, whatever its order relative to the current one. *)
Theorem bump_monotonic (v : semver.VersionInfo) :
  semver.gt (semver.bump_major v) (semver.bump_minor v)
  /\ semver.gt (semver.bump_minor v) (semver.bump_patch v)
  /\ semver.gt (semver.bump_patch v) v
  /\ (forall git stdin current_version auto_mode force_mode next out,
        semver.parse current_version = Ok v ->
        get_next_version git stdin current_version auto_mode force_mode = (Ok next, out) ->
        auto_mode || force_mode = true
        \/ (exists line rest, stdin = line :: rest /\ strip line <> "4") ->
        exists v', semver.parse next = Ok v' /\ semver.gt v' v)
  /\ (forall git line custom rest current_version,
        strip line = "4" ->
        validate_version (strip custom) = true ->
        get_next_version git (line :: custom :: rest) current_version false false
        = (Ok (strip custom), menu)).
Proof.
  split; [apply bump_major_gt|]. split; [apply bump_minor_gt|].
  split; [apply bump_patch_gt|]. split.
  - intros git stdin current_version auto_mode force_mode next out Hv Hnext Hbump.
    destruct (auto_mode || force_mode) eqn:Hmode.
    { by apply (automatic_version_above git stdin current_version auto_mode force_mode
                  v next out). }
    destruct Hbump as [?|(line & rest & -> & Hchoice)]; [done|].
    apply orb_false_elim in Hmode as [-> ->].
    injection Hnext as Hnext _.
    by apply (manual_version_above current_version line rest v next).
  - intros git line custom rest current_version Hchoice Hvalid.
    unfold get_next_version. cbn [orb negb andb]. unfold manual_version.
    cbn [input mbind result_bind]. rewrite Hchoice. cbn [String.eqb Ascii.eqb].
    by rewrite Hvalid.
Qed.

Lemma bump_monotonic_witness :
  (exists v', semver.parse "1.3.0" = Ok v'
              /\ semver.gt v' (semver.mkVersion 1 2 3 None None))
  /\ (exists v', semver.parse "2.0.0" = Ok v'
                 /\ semver.gt v' (semver.mkVersion 1 2 3 None None))
  /\ get_next_version (GitLog scenario_log) [" 4 "; "0.0.1"; "y"] "1.2.3" false false
     = (Ok "0.0.1", menu).
Proof.
  destruct (bump_monotonic (semver.mkVersion 1 2 3 None None))
    as (_ & _ & _ & Hbump & Hcustom).
  split; [|split].
  - apply (Hbump (GitLog scenario_log) [] "1.2.3" true false "1.3.0" []).
    + reflexivity.
    + reflexivity.
    + left. reflexivity.
  - apply (Hbump (GitLog scenario_log) ["3"] "1.2.3" false false "2.0.0" menu).
    + reflexivity.
    + reflexivity.
    + right. exists "3", []. split; [reflexivity|discriminate].
  - apply (Hcustom (GitLog scenario_log) " 4 " "0.0.1" ["y"] "1.2.3").
    + reflexivity.
    + reflexivity.
Defined.

(** ** Grouping *)

Section Grouping.

Lemma in_list_single x y : in_list x [y] = (x =? y)%string.
Proof. unfold in_list. simpl. apply orb_false_r. Qed.

(** One commit extends the bucket it is routed to and no other. *)
Lemma add_commit_lookup (changes : gmap string (list string)) c k items :
  changes !! category_name k = Some items ->
  add_commit changes c !! category_name k
  = Some (items ++ if routed_to k c then [render_entry c] else []).
Proof.
  intros Hk. unfold add_commit, routed_to, route, append_to.
  rewrite !in_list_single.
  repeat match goal with
  | |- context [if ?b then _ else _] =>
      lazymatch b with
      | in_list _ _ => destruct b
      | String.eqb _ _ => destruct b
      end
  end; simpl;
  destruct k; simpl in *; rewrite ?lookup_alter; simpl; rewrite ?Hk; simpl;
  rewrite ?app_nil_r; done.
Qed.

Lemma group_from_lookup commits (changes : gmap string (list string)) k items :
  changes !! category_name k = Some items ->
  fold_left add_commit commits changes !! category_name k
  = Some (items ++ (render_entry <$> List.filter (routed_to k) commits)).
Proof.
  revert changes items. induction commits as [|c commits IH]; intros changes items Hk.
  - simpl. by rewrite app_nil_r.
  - simpl. rewrite (IH _ _ (add_commit_lookup _ c _ _ Hk)).
    rewrite <- app_assoc. by destruct (routed_to k c).
Qed.

Lemma group_commits_lookup commits k :
  group_commits commits !! category_name k
  = Some (render_entry <$> List.filter (routed_to k) commits).
Proof.
  unfold group_commits.
  by rewrite (group_from_lookup commits empty_changes k []) by (by destruct k).
Qed.

Lemma parse_ignored c :
  r_subject c = "" \/ startswith (r_subject c) "Merge " = true ->
  parse_commit_message c = ignored c.
Proof.
  intros [H|H]; unfold parse_commit_message; rewrite H; [done|].
  by destruct (is_empty (r_subject c)).
Qed.

Lemma parse_commits_skip g before after :
  r_subject (raw_of_git g) = ""
  \/ startswith (r_subject (raw_of_git g)) "Merge " = true ->
  parse_commits (GitLog (before ++ g :: after)) = parse_commits (GitLog (before ++ after)).
Proof.
  intros H. unfold parse_commits. f_equal.
  rewrite !fmap_app, !List.filter_app. simpl.
  by rewrite (parse_ignored _ H).
Qed.

End Grouping.

(** C4, as stated, fails in its scenario: the pull-request reference stays
    in the subject, so the rendered line of "fix: crash on start #42" is
    "crash on start #42 [#42]". *)
Lemma scenario_fixed_line :
  (get_changes_from_git (GitLog scenario_log)).1 ≫= (fun changes => changes !! "Fixed")
    = Some ["crash on start #42 [#42]"]
  /\ (get_changes_from_git (GitLog scenario_log)).1 ≫= (fun changes => changes !! "Fixed")
    <> Some ["crash on start [#42]"].
Proof. split; [vm_compute; reflexivity | vm_compute; discriminate]. Qed.

(** C4 (amended).  Each non-ignored change is rendered as its subject plus
    the " [#N]" suffix when it has a pull-request reference, and is listed,
    in input order, under the category its type is routed to: feat and add
    under Added; fix and bugfix under Fixed; refactor, perf and improve under
    Changed; remove under Removed; security under Security; deprecate under
    Deprecated; docs, test, chore and style nowhere; every other type under
    Changed.  The commits "feat: add login", "fix: crash on start #42" and
    "docs: typo" give Added ["add login"] and Fixed
    ["crash on start #42 [#42]"], the other categories empty, and from 1.2.3
    automatic mode resolves 1.3.0. *)
Theorem changes_routed_by_type :
  (forall commits k,
     group_commits commits !! category_name k
     = Some (render_entry <$> List.filter (routed_to k) commits))
  /\ (forall git,
     match (get_changes_from_git git).1 with
     | Some changes =>
         forall k, changes !! category_name k
                   = Some (render_entry <$> List.filter (routed_to k) (parse_commits git).1)
     | None => (parse_commits git).1 = []
     end)
  /\ (forall c, render_entry c
                = c_subject c +:+ match c_pr c with
                                  | Some n => if is_empty n then "" else " [#" +:+ n +:+ "]"
                                  | None => ""
                                  end)
  /\ (get_changes_from_git (GitLog scenario_log)).1
     = Some (<["Added" := ["add login"]]>
               (<["Fixed" := ["crash on start #42 [#42]"]]> empty_changes))
  /\ get_next_version (GitLog scenario_log) [] "1.2.3" true false = (Ok "1.3.0", []).
Proof.
  split; [apply group_commits_lookup|].
  split; [|split; [done|split; vm_compute; reflexivity]].
  intros git. unfold get_changes_from_git.
  destruct (parse_commits git) as [[|c commits] out]; simpl; [done|].
  intros k. apply group_commits_lookup.
Qed.

(** C5.  A raw commit whose subject is empty or starts with "Merge " is
    classified as "ignore"; no record of that type is among the parsed
    commits; and such a commit changes nothing downstream: the parsed
    commits, the category buckets and the resolved version are what they are
    without it. *)
Theorem merge_and_empty_ignored :
  (forall c : raw_commit,
     r_subject c = "" \/ startswith (r_subject c) "Merge " = true ->
     c_type (parse_commit_message c) = "ignore")
  /\ (forall git p, In p (parse_commits git).1 -> c_type p <> "ignore")
  /\ (forall g before after,
        r_subject (raw_of_git g) = ""
        \/ startswith (r_subject (raw_of_git g)) "Merge " = true ->
        parse_commits (GitLog (before ++ g :: after))
          = parse_commits (GitLog (before ++ after))
        /\ get_changes_from_git (GitLog (before ++ g :: after))
          = get_changes_from_git (GitLog (before ++ after))
        /\ forall stdin current_version auto_mode force_mode,
             get_next_version (GitLog (before ++ g :: after)) stdin current_version
                              auto_mode force_mode
             = get_next_version (GitLog (before ++ after)) stdin current_version
                                auto_mode force_mode).
Proof.
  split; [|split].
  - intros c H. by rewrite (parse_ignored _ H).
  - intros [error|commits] p; simpl; [done|].
    intros Hp%List.filter_In. destruct Hp as [_ Hp].
    unfold not_ignored in Hp. apply negb_true_iff in Hp.
    by apply String.eqb_neq in Hp.
  - intros g before after H.
    pose proof (parse_commits_skip g before after H) as Heq.
    split; [done|]. split.
    + unfold get_changes_from_git. by rewrite Heq.
    + intros. unfold get_next_version. by rewrite Heq.
Qed.

Lemma merge_and_empty_ignored_witness :
  c_type (parse_commit_message (mkRaw "5d4e6f7a8b9c" "Merge branch 'main'" "" "dev"))
    = "ignore"
  /\ parse_commits (GitLog (scenario_log ++ mkGitCommit "5d4e6f7a8b9c" "" "dev" :: []))
     = parse_commits (GitLog (scenario_log ++ [])).
Proof.
  destruct merge_and_empty_ignored as (Htype & _ & Hskip). split.
  - apply Htype. right. reflexivity.
  - apply (Hskip (mkGitCommit "5d4e6f7a8b9c" "" "dev") scenario_log []).
    left. reflexivity.
Defined.

(** ** Locating the anchor *)

Section Anchor.

Lemma last_lf_split p ws k :
  last_lf_end ws = Some k -> all_chars p ws = true ->
  exists w1 w2, ws = w1 +:+ nl +:+ w2 /\ all_chars p w1 = true
                /\ k = S (String.length w1).
Proof.
  revert k. induction ws as [|c r IH]; intros k Hk Hp; [done|].
  simpl in Hk, Hp. apply andb_true_iff in Hp as [Hc Hr].
  destruct (last_lf_end r) as [j|] eqn:Hj.
  - destruct (IH j eq_refl Hr) as (w1 & w2 & -> & Hw1 & ->).
    exists (String c w1), w2. split; [done|]. simpl. rewrite Hc, Hw1.
    split; [done|]. by injection Hk as <-.
  - destruct (Ascii.eqb_spec c LF) as [->|]; [|done].
    exists "", r. split; [done|]. split; [done|]. by injection Hk as <-.
Qed.

Lemma last_lf_found w1 w2 : last_lf_end (w1 +:+ nl +:+ w2) <> None.
Proof.
  induction w1 as [|c w1 IH].
  - rewrite append_empty_l. change (nl +:+ w2) with (String LF w2). simpl.
    by destruct (last_lf_end w2).
  - rewrite append_cons. simpl. by destruct (last_lf_end (w1 +:+ nl +:+ w2)).
Qed.

(** A match of the anchor pattern at the start of the text, with the
    offset at which it ends. *)
Lemma match_anchor_position content k :
  match_anchor content = Some k ->
  exists ws after,
    content = anchor +:+ ws +:+ nl +:+ after
    /\ all_chars is_space ws = true
    /\ k = String.length (anchor +:+ ws +:+ nl).
Proof.
  unfold match_anchor. destruct (startswith content anchor) eqn:Hpre; [|done].
  apply prefix_split in Hpre.
  pose proof (span_split is_space (drop (String.length anchor) content)) as Hsplit.
  pose proof (span_all_chars is_space (drop (String.length anchor) content)) as Hws.
  destruct (span is_space (drop (String.length anchor) content)) as [ws rest].
  cbn [fst snd] in Hsplit, Hws.
  destruct (last_lf_end ws) as [j|] eqn:Hj; [|done]. intros [= <-].
  destruct (last_lf_split _ _ _ Hj Hws) as (w1 & w2 & -> & Hw1 & ->).
  exists w1, (w2 +:+ rest). split; [|split; [done|]].
  - rewrite Hpre at 1. rewrite Hsplit. by rewrite !append_assoc.
  - rewrite !length_append. simpl. lia.
Qed.

Lemma search_anchor_unfold content :
  search_anchor content =
  match match_anchor content with
  | Some k => Some k
  | None =>
      match content with
      | EmptyString => None
      | String _ r => S <$> search_anchor r
      end
  end.
Proof. by destruct content. Qed.

(** Where [search_anchor] stops: just after the first anchor line. *)
Lemma search_anchor_position content k :
  search_anchor content = Some k ->
  exists before ws after,
    content = before +:+ anchor +:+ ws +:+ nl +:+ after
    /\ all_chars is_space ws = true
    /\ k = String.length (before +:+ anchor +:+ ws +:+ nl).
Proof.
  revert k. induction content as [|c r IH]; intros k; rewrite search_anchor_unfold.
  - destruct (match_anchor "") eqn:E; [|done]. intros [= <-].
    destruct (match_anchor_position _ _ E) as (ws & after & H & Hws & Hk).
    exists "", ws, after. by rewrite !append_empty_l.
  - destruct (match_anchor (String c r)) eqn:E.
    + intros [= <-].
      destruct (match_anchor_position _ _ E) as (ws & after & H & Hws & Hk).
      exists "", ws, after. by rewrite !append_empty_l.
    + destruct (search_anchor r) as [j|]; [|done]. intros [= <-].
      destruct (IH j eq_refl) as (before & ws & after & -> & Hws & ->).
      exists (String c before), ws, after. by rewrite !append_cons.
Qed.

(** [search_anchor] finds an anchor line exactly when there is one. *)
Lemma search_anchor_anchored content :
  search_anchor content <> None <-> anchored content.
Proof.
  split.
  - destruct (search_anchor content) as [k|] eqn:E; [|done]. intros _.
    destruct (search_anchor_position _ _ E) as (before & ws & after & H & Hws & _).
    by exists before, ws, after.
  - intros (before & ws & after & -> & Hws).
    induction before as [|c b IH]; rewrite search_anchor_unfold.
    + rewrite append_empty_l.
      destruct (match_anchor (anchor +:+ ws +:+ nl +:+ after)) eqn:E; [done|].
      exfalso. revert E. unfold match_anchor, startswith.
      rewrite prefix_app.
      replace (drop (String.length anchor) (anchor +:+ ws +:+ nl +:+ after))
        with (ws +:+ nl +:+ after) by done.
      change (nl +:+ after) with (String LF after).
      rewrite (span_all is_space ws (String LF after) Hws). simpl.
      destruct (span is_space after) as [more rest]. simpl.
      pose proof (last_lf_found ws more) as Hfound.
      change (nl +:+ more) with (String LF more) in Hfound.
      by destruct (last_lf_end (ws +:+ String LF more)).
    + rewrite append_cons.
      destruct (match_anchor _); [done|]. simpl.
      by destruct (search_anchor (b +:+ anchor +:+ ws +:+ nl +:+ after)).
Qed.

End Anchor.



(** ** The link footer *)

(** C7 (code check).  [normalize_url] removes every occurrence of ".git"
    and of "git+", not only a trailing and a leading one.  For the
    repository "git+https://github.com/octo/octo.github.io.git" the links
    are written with "https://github.com/octo/octohub.io", where removing
    the two affixes alone gives "https://github.com/octo/octo.github.io". *)
Theorem inner_git_is_removed :
  normalize_url "git+https://github.com/octo/octo.github.io.git"
    = "https://github.com/octo/octohub.io"
  /\ strip_git_affixes "git+https://github.com/octo/octo.github.io.git"
    = "https://github.com/octo/octo.github.io"
  /\ update_version_links pages_package small_document "1.1.0"
    = (small_document +:+ nl +:+ nl +:+ "## Links" +:+ nl
       +:+ "[Unreleased]: https://github.com/octo/octohub.io/compare/v1.1.0...HEAD" +:+ nl
       +:+ "[1.1.0]: https://github.com/octo/octohub.io/releases/tag/v1.1.0" +:+ nl,
       [])
  /\ update_version_links pages_package linked_document "1.1.0"
    = (small_document +:+ nl
       +:+ "[Unreleased]: https://github.com/octo/octohub.io/compare/v1.1.0...HEAD" +:+ nl
       +:+ "[1.1.0]: https://github.com/octo/octohub.io/releases/tag/v1.1.0" +:+ nl
       +:+ "[1.0.0]: https://github.com/org/repo/releases/tag/v1.0.0" +:+ nl,
       []).
Proof. repeat split; vm_compute; reflexivity. Qed.

(** C8.  The footer rewrite is best effort.  A failure to resolve the
    repository URL is a failure of the rewrite; a failed rewrite prints the
    warning and returns the text it was given; and when the changelog has an
    anchor line the write always succeeds: the entry is inserted just after
    the anchor line, and a failed rewrite leaves exactly that text, links
    unchanged, to be written. *)
Theorem link_failure_keeps_entry :
  (forall pkg content version e,
     repository_url pkg = Raise e -> rewrite_links pkg content version = Raise e)
  /\ (forall pkg content version e,
        rewrite_links pkg content version = Raise e ->
        update_version_links pkg content version = (content, [warning_links]))
  /\ (forall fs current changelog_entry version,
        changelog fs = Some current ->
        anchored current ->
        exists before ws after,
          current = before +:+ anchor +:+ ws +:+ nl +:+ after
          /\ all_chars is_space ws = true
          /\ let inserted :=
               (before +:+ anchor +:+ ws +:+ nl) +:+ nl +:+ changelog_entry +:+ nl +:+ after in
             match rewrite_links (package fs) inserted version with
             | Ok updated =>
                 update_changelog_file fs changelog_entry version
                 = (Ok (), mkFiles (Some updated) (package fs), [])
             | Raise _ =>
                 update_changelog_file fs changelog_entry version
                 = (Ok (), mkFiles (Some inserted) (package fs), [warning_links])
             end).
Proof.
  split; [|split].
  - intros pkg content version e He. unfold rewrite_links. by rewrite He.
  - intros pkg content version e He. unfold update_version_links. by rewrite He.
  - intros fs current changelog_entry version Hfile Hanchor.
    apply search_anchor_anchored in Hanchor.
    destruct (search_anchor current) as [k|] eqn:Hk; [|done].
    destruct (search_anchor_position _ _ Hk) as (before & ws & after & Hcur & Hws & Hlen).
    exists before, ws, after. split; [done|]. split; [done|]. simpl.
    unfold update_changelog_file, update_version_links. rewrite Hfile, Hk.
    assert (take k current = before +:+ anchor +:+ ws +:+ nl) as ->.
    { rewrite Hlen, Hcur.
      replace (before +:+ anchor +:+ ws +:+ nl +:+ after)
        with ((before +:+ anchor +:+ ws +:+ nl) +:+ after)
        by (by rewrite !append_assoc).
      apply take_length_append. }
    assert (drop k current = after) as ->.
    { rewrite Hlen, Hcur.
      replace (before +:+ anchor +:+ ws +:+ nl +:+ after)
        with ((before +:+ anchor +:+ ws +:+ nl) +:+ after)
        by (by rewrite !append_assoc).
      apply drop_length_append. }
    by destruct (rewrite_links _ _ _).
Qed.

Lemma link_failure_keeps_entry_witness :
  rewrite_links null_url_package small_document "1.1.0" = Raise AttributeError
  /\ update_version_links null_url_package small_document "1.1.0"
     = (small_document, [warning_links])
  /\ exists before ws after,
       small_document = before +:+ anchor +:+ ws +:+ nl +:+ after
       /\ all_chars is_space ws = true
       /\ let inserted :=
            (before +:+ anchor +:+ ws +:+ nl) +:+ nl +:+ "entry" +:+ nl +:+ after in
          match rewrite_links null_url_package inserted "1.1.0" with
          | Ok updated =>
              update_changelog_file (mkFiles (Some small_document) null_url_package)
                                    "entry" "1.1.0"
              = (Ok (), mkFiles (Some updated) null_url_package, [])
          | Raise _ =>
              update_changelog_file (mkFiles (Some small_document) null_url_package)
                                    "entry" "1.1.0"
              = (Ok (), mkFiles (Some inserted) null_url_package, [warning_links])
          end.
Proof.
  destruct link_failure_keeps_entry as (Hurl & Hwarn & Hwrite).
  split; [|split].
  - apply Hurl. reflexivity.
  - apply (Hwarn _ _ _ AttributeError). reflexivity.
  - apply (Hwrite (mkFiles (Some small_document) null_url_package) small_document).
    + reflexivity.
    + apply search_anchor_anchored. vm_compute. discriminate.
Defined.

(** ** Formatting *)

Section Formatting.

Lemma unlines_cons line lines : unlines (line :: lines) = (line +:+ nl) +:+ unlines lines.
Proof. reflexivity. Qed.

Lemma unlines_app l1 l2 : unlines (l1 ++ l2) = unlines l1 +:+ unlines l2.
Proof.
  induction l1 as [|l l1 IH]; [done|].
  rewrite <- app_comm_cons, !unlines_cons, IH. by rewrite !append_assoc.
Qed.

Lemma add_items_unlines entry items :
  add_items entry items = entry +:+ unlines ((fun item => "- " +:+ item) <$> items).
Proof.
  revert entry. induction items as [|item items IH]; intros entry.
  - by rewrite append_empty_r.
  - change (add_items entry (item :: items))
      with (add_items (entry +:+ "- " +:+ item +:+ nl) items).
    rewrite IH, fmap_cons, unlines_cons. by rewrite !append_assoc.
Qed.

Lemma add_category_unlines changes entry category :
  add_category changes entry category
  = entry +:+ unlines (section_lines changes category).
Proof.
  unfold add_category, section_lines.
  destruct (changes !! category) as [[|item items]|].
  - by rewrite append_empty_r.
  - rewrite add_items_unlines, unlines_app, !unlines_cons.
    change (unlines []) with "". by rewrite !append_assoc.
  - by rewrite append_empty_r.
Qed.

(** The entry is its lines, each closed by a line feed. *)
Lemma format_changelog_unlines changes version today :
  format_changelog changes version today = unlines (entry_lines changes version today).
Proof.
  unfold format_changelog, entry_lines, ordered_categories.
  cbn [fold_left flat_map].
  rewrite !add_category_unlines, unlines_cons, !unlines_app.
  change (unlines []) with "". by rewrite !append_assoc, !append_empty_r.
Qed.

Lemma split_from_line cur line rest :
  single_line line ->
  split_from LF cur (line +:+ nl +:+ rest) = (cur +:+ line) :: split_from LF "" rest.
Proof.
  unfold single_line. revert cur. induction line as [|c line IH]; intros cur H.
  - rewrite append_empty_l, append_empty_r. done.
  - simpl in H. apply andb_true_iff in H as [Hc Hline].
    rewrite append_cons. simpl. unfold not_lf in Hc.
    destruct (c =? LF)%char; [done|].
    rewrite (IH _ Hline). by rewrite append_assoc.
Qed.

Lemma split_lines_unlines lines :
  Forall single_line lines -> split_lines (unlines lines) = lines ++ [""].
Proof.
  unfold split_lines, split_on. induction 1 as [|line lines Hline _ IH]; [done|].
  rewrite unlines_cons, append_assoc.
  rewrite (split_from_line _ _ _ Hline). by rewrite IH.
Qed.

Lemma all_chars_impl (p q : ascii -> bool) s :
  (forall c, p c = true -> q c = true) -> all_chars p s = true -> all_chars q s = true.
Proof.
  intros Hpq. induction s as [|c s IH]; [done|].
  simpl. intros [Hc Hs]%andb_true_iff. by rewrite (Hpq _ Hc), (IH Hs).
Qed.

Lemma digit_not_lf c : is_digit c = true -> not_lf c = true.
Proof.
  unfold not_lf. destruct (Ascii.eqb_spec c LF) as [->|]; [|done]. by vm_compute.
Qed.

Lemma zeros_single_line n : single_line (zeros n).
Proof. induction n; [done|]. unfold single_line. simpl. done. Qed.

Lemma zero_pad_single_line w n : single_line (zero_pad w n).
Proof.
  unfold single_line, zero_pad. rewrite all_chars_append.
  rewrite (zeros_single_line _).
  apply (all_chars_impl _ _ _ digit_not_lf), str_of_N_digits.
Qed.

Lemma isoformat_single_line d : single_line (isoformat d).
Proof.
  unfold single_line, isoformat. rewrite !all_chars_append.
  by rewrite !(zero_pad_single_line _ _).
Qed.

Lemma item_lines_no_header items :
  List.filter is_category_header ((fun item => "- " +:+ item) <$> items) = [].
Proof. induction items as [|item items IH]; [done|]. by rewrite fmap_cons. Qed.

Lemma header_is_header category : is_category_header ("### " +:+ category) = true.
Proof. apply prefix_app. Qed.

Lemma section_headers changes category :
  List.filter is_category_header (section_lines changes category)
  = if has_items changes category then ["### " +:+ category] else [].
Proof.
  unfold section_lines, has_items.
  destruct (changes !! category) as [[|item items]|]; [done| |done].
  rewrite List.filter_app, item_lines_no_header.
  cbn [List.filter]. by rewrite header_is_header.
Qed.

Lemma section_lines_single changes category :
  single_line category ->
  (forall items item,
     changes !! category = Some items -> In item items -> single_line item) ->
  Forall single_line (section_lines changes category).
Proof.
  intros Hc Hitems. unfold section_lines.
  destruct (changes !! category) as [[|item items]|] eqn:E; [done| |done].
  apply Forall_app. split.
  - repeat constructor. unfold single_line. by rewrite all_chars_append, Hc.
  - apply Forall_fmap, Forall_forall. intros x Hx%list_elem_of_In.
    unfold single_line. simpl. rewrite all_chars_append.
    by rewrite (Hitems _ x eq_refl Hx).
Qed.

Lemma well_sectioned_items items rest :
  well_sectioned (((fun item => "- " +:+ item) <$> items) ++ rest) = well_sectioned rest.
Proof. induction items as [|item items IH]; [done|]. by rewrite fmap_cons. Qed.

Lemma well_sectioned_section changes category rest :
  well_sectioned (section_lines changes category ++ rest) = well_sectioned rest.
Proof.
  unfold section_lines.
  destruct (changes !! category) as [[|item items]|]; [done| |done].
  rewrite fmap_cons. cbn [app well_sectioned skip_blank is_empty].
  rewrite header_is_header.
  change (is_category_header "") with false.
  change (is_category_header ("- " +:+ item)) with false.
  change (is_item ("- " +:+ item)) with (String.prefix "" item).
  change (is_empty ("- " +:+ item)) with false.
  cbn [andb]. rewrite well_sectioned_items. by destruct item.
Qed.

Lemma header_inj c1 c2 : "### " +:+ c1 = "### " +:+ c2 -> c1 = c2.
Proof. cbv. by intros [= ->]. Qed.

End Formatting.

(** C6, as stated, fails: an item that spans two lines can put a category
    header into the entry for a category that has no items, with nothing
    under it. *)
Lemma multi_line_item_breaks_sections :
  In "### Fixed" (split_lines (format_changelog multi_line_changes "1.0.0" some_day))
  /\ multi_line_changes !! "Fixed" = None
  /\ well_sectioned (split_lines (format_changelog multi_line_changes "1.0.0" some_day))
     = false.
Proof.
  split; [|split; vm_compute; reflexivity].
  vm_compute. do 5 right. by left.
Qed.

(** C6 (amended).  The entry is always the version header followed, for
    each category that has items, in the order Added, Changed, Deprecated,
    Removed, Fixed, Security, by a blank line, the category header, a blank
    line and the items.  When the version and the items are single lines,
    the lines of the entry that start with "### " are exactly the headers of
    the categories that have items, in that order; a category header is a
    line of the entry if and only if the category has items; and every
    category header is followed, blank lines apart, by an item. *)
Theorem sections_only_for_items changes version today :
  format_changelog changes version today = unlines (entry_lines changes version today)
  /\ (single_line version ->
      (forall category items item,
         In category ordered_categories ->
         changes !! category = Some items -> In item items -> single_line item) ->
      List.filter is_category_header
                  (split_lines (format_changelog changes version today))
      = (fun category => "### " +:+ category)
          <$> List.filter (has_items changes) ordered_categories
      /\ (forall category,
            In category ordered_categories ->
            In ("### " +:+ category)
               (split_lines (format_changelog changes version today))
            <-> has_items changes category = true)
      /\ well_sectioned (split_lines (format_changelog changes version today)) = true).
Proof.
  split; [apply format_changelog_unlines|].
  intros Hversion Hitems.
  assert (split_lines (format_changelog changes version today)
          = entry_lines changes version today ++ [""]) as Hlines.
  { rewrite format_changelog_unlines. apply split_lines_unlines.
    unfold entry_lines, ordered_categories. cbn [flat_map].
    constructor.
    - unfold single_line. rewrite !all_chars_append, Hversion.
      by rewrite (isoformat_single_line today).
    - rewrite !Forall_app.
      repeat split; try done;
        (apply section_lines_single; [done|]);
        intros items item; apply Hitems; simpl; tauto. }
  assert (List.filter is_category_header
            (split_lines (format_changelog changes version today))
          = (fun category => "### " +:+ category)
              <$> List.filter (has_items changes) ordered_categories) as Hheaders.
  { rewrite Hlines. unfold entry_lines, ordered_categories.
    cbn [flat_map List.filter app].
    change (is_category_header ("## [" +:+ version +:+ "] - " +:+ isoformat today))
      with false.
    cbn [app]. rewrite !List.filter_app, !section_headers. simpl.
    by repeat destruct (has_items changes _). }
  split; [done|]. split.
  - intros category Hcat. split.
    + intros Hin.
      assert (In ("### " +:+ category)
                 (List.filter is_category_header
                    (split_lines (format_changelog changes version today)))) as Hf.
      { apply List.filter_In. split; [done|apply header_is_header]. }
      rewrite Hheaders in Hf. apply list_elem_of_In, list_elem_of_fmap in Hf.
      destruct Hf as (c & Hc%header_inj & Hin'). subst c.
      apply list_elem_of_In, List.filter_In in Hin'. tauto.
    + intros Hhas.
      assert (In ("### " +:+ category)
                 (List.filter is_category_header
                    (split_lines (format_changelog changes version today)))) as Hf.
      { rewrite Hheaders. apply list_elem_of_In, list_elem_of_fmap.
        exists category. split; [done|].
        apply list_elem_of_In, List.filter_In. tauto. }
      apply List.filter_In in Hf. tauto.
  - rewrite Hlines. unfold entry_lines, ordered_categories. cbn [flat_map].
    rewrite <- app_comm_cons. cbn [well_sectioned].
    change (is_category_header ("## [" +:+ version +:+ "] - " +:+ isoformat today))
      with false.
    cbn [andb]. rewrite <- !app_assoc, !well_sectioned_section. done.
Qed.

Lemma sections_only_for_items_witness :
  well_sectioned
    (split_lines
       (format_changelog (group_commits (parse_commits (GitLog scenario_log)).1)
                         "1.3.0" some_day)) = true.
Proof.
  apply (sections_only_for_items (group_commits (parse_commits (GitLog scenario_log)).1)
           "1.3.0" some_day).
  - reflexivity.
  - intros category items item Hcat.
    repeat (destruct Hcat as [<-|Hcat]); try done;
      vm_compute; intros [= <-]; simpl; intros Hin;
      repeat (destruct Hin as [<-|Hin]); try done.
Defined.

(** C10.  When each of the six category lists is empty or absent, the
    formatter returns the version header line and its line feed, and
    nothing else; it does not reject the input.  The refusal of empty
    changes is the caller's: when there are no changes, or every list of the
    mapping is empty, [update_changelog] prints its notice and returns
    before formatting, and the files stay as they were. *)
Theorem empty_changes_header_only :
  (forall changes version today,
     (forall category,
        In category ordered_categories ->
        changes !! category = None \/ changes !! category = Some []) ->
     format_changelog changes version today
     = "## [" +:+ version +:+ "] - " +:+ isoformat today +:+ nl)
  /\ (forall fs stdin version today dry_run force,
        update_changelog_with fs stdin None version today dry_run force
        = (Returned, fs, ["No changes detected. Aborting."]))
  /\ (forall fs stdin (changes : gmap string (list string)) version today dry_run force,
        (forall key items, changes !! key = Some items -> items = []) ->
        update_changelog_with fs stdin (Some changes) version today dry_run force
        = (Returned, fs, ["No changes detected. Aborting."])).
Proof.
  split; [|split].
  - intros changes version today Hempty.
    rewrite format_changelog_unlines. unfold entry_lines, ordered_categories.
    cbn [flat_map].
    assert (forall category, In category ordered_categories ->
                             section_lines changes category = []) as Hnone.
    { intros category Hin. unfold section_lines.
      by destruct (Hempty category Hin) as [-> | ->]. }
    rewrite !Hnone by (simpl; tauto).
    cbn [app]. rewrite unlines_cons. change (unlines []) with "".
    by rewrite append_empty_r, !append_assoc.
  - done.
  - intros fs stdin changes version today dry_run force Hempty.
    unfold update_changelog_with.
    assert (no_changes (Some changes) = true) as ->; [|done].
    unfold no_changes. apply orb_true_iff. right. apply negb_true_iff.
    destruct (existsb _ _) eqn:E; [|done].
    apply existsb_exists in E as ([key items] & Hin & Hhas).
    apply list_elem_of_In, elem_of_map_to_list in Hin.
    unfold has_items in Hhas. simpl in Hhas. rewrite Hin in Hhas.
    by rewrite (Hempty _ _ Hin) in Hhas.
Qed.

Lemma empty_changes_header_only_witness :
  format_changelog empty_changes "1.1.0" some_day
    = "## [" +:+ "1.1.0" +:+ "] - " +:+ isoformat some_day +:+ nl
  /\ update_changelog_with (mkFiles (Some small_document) pages_package) []
       (Some empty_changes) "1.1.0" some_day false true
     = (Returned, mkFiles (Some small_document) pages_package,
        ["No changes detected. Aborting."]).
Proof.
  destruct empty_changes_header_only as (Hformat & _ & Hcaller). split.
  - apply Hformat. intros category Hin.
    repeat (destruct Hin as [<-|Hin]); try done; right; reflexivity.
  - apply Hcaller. intros key items. unfold empty_changes.
    repeat (rewrite lookup_insert; case_decide; [by intros [= <-]|]).
    by rewrite lookup_empty.
Defined.

(** * Further properties *)

(** ** Versions returned by [get_next_version] *)

Section ValidVersions.

Lemma plain_version_valid v :
  semver.prerelease v = None -> semver.build v = None ->
  validate_version (semver.to_string v) = true.
Proof.
  destruct v as [a b c pre bld]. simpl. intros -> ->.
  unfold validate_version. by rewrite parse_to_string.
Qed.

Lemma bump_with_valid bump current_version next :
  (forall v, semver.prerelease (bump v) = None /\ semver.build (bump v) = None) ->
  bump_with bump current_version = Ok next ->
  validate_version next = true.
Proof.
  intros Hbump. unfold bump_with.
  destruct (semver.parse current_version) as [v|e]; [|done].
  simpl. intros [= <-]. by apply plain_version_valid; apply Hbump.
Qed.

Lemma auto_bump_valid commits current_version next :
  auto_bump commits current_version = Ok next -> validate_version next = true.
Proof.
  unfold auto_bump. destruct (semver.parse current_version) as [v|e]; [|done].
  simpl. destruct (existsb is_breaking commits); [|destruct (existsb is_feature commits)];
    intros [= <-]; by apply plain_version_valid.
Qed.

Lemma manual_version_valid current_version stdin next :
  manual_version current_version stdin = Ok next -> validate_version next = true.
Proof.
  unfold manual_version. destruct stdin as [|line rest]; [done|]. simpl.
  destruct (strip line =? "4")%string.
  - destruct rest as [|line2 rest2]; [done|]. simpl.
    destruct (validate_version (strip line2)) eqn:Hvalid; [|done].
    by intros [= <-].
  - destruct (strip line =? "1")%string; [by apply bump_with_valid|].
    destruct (strip line =? "2")%string; [by apply bump_with_valid|].
    destruct (strip line =? "3")%string; [by apply bump_with_valid|done].
Qed.

End ValidVersions.

(** X1.  Whatever the mode, a version that [get_next_version] returns is a
    valid semantic version: [validate_version] accepts it. *)
Theorem resolved_version_is_valid git stdin current_version auto_mode force_mode next out :
  get_next_version git stdin current_version auto_mode force_mode = (Ok next, out) ->
  validate_version next = true.
Proof.
  unfold get_next_version.
  destruct (negb (auto_mode || force_mode) && negb force_mode).
  - intros [= H _]. by apply manual_version_valid in H.
  - destruct (parse_commits git) as [commits out1].
    destruct (auto_bump commits current_version) as [next'|e] eqn:Hauto.
    + intros [= <- _]. by apply auto_bump_valid in Hauto.
    + intros [= H _]. by apply bump_with_valid in H.
Qed.

Lemma resolved_version_is_valid_witness : validate_version "1.3.0" = true.
Proof.
  apply (resolved_version_is_valid (GitLog scenario_log) [] "1.2.3" true false "1.3.0" []).
  reflexivity.
Defined.

(** ** Parsing one commit *)

Section CommitFacts.

Lemma prefix_empty s : String.prefix "" s = true.
Proof. by destruct s. Qed.

Lemma contains_cons needle c r :
  contains needle (String c r) = String.prefix needle (String c r) || contains needle r.
Proof. reflexivity. Qed.

Lemma is_empty_false s : s <> "" -> is_empty s = false.
Proof. by destruct s. Qed.







Lemma infer_never_ignore subject : infer_commit_type subject <> "ignore".
Proof.
  unfold infer_commit_type.
  repeat match goal with
         | |- context [if ?b then _ else _] => destruct b; [done|]
         end.
  done.
Qed.

(** A reference found by the search is a run of digits that follows "#". *)
Lemma search_pr_shape text n :
  search_pr text = Some n ->
  n <> "" /\ all_chars is_digit n = true /\ contains ("#" +:+ n) text = true.
Proof.
  induction text as [|c r IH]; [done|]. intros H. simpl in H.
  rewrite contains_cons.
  destruct (Ascii.eqb_spec c "#") as [->|Hc].
  - pose proof (span_split is_digit r) as Hsplit.
    pose proof (span_all_chars is_digit r) as Hdigits.
    destruct (span is_digit r) as [ds r']. cbn [fst snd] in Hsplit, Hdigits.
    destruct ds as [|d ds].
    + simpl in H. destruct (IH H) as (? & ? & ->).
      split; [done|]. split; [done|]. apply orb_true_r.
    + simpl in H. injection H as <-. split; [done|]. split; [done|].
      rewrite Hsplit.
      change (String "#" (String d ds +:+ r')) with (("#" +:+ String d ds) +:+ r').
      by rewrite prefix_app.
  - destruct (IH H) as (? & ? & ->).
    split; [done|]. split; [done|]. apply orb_true_r.
Qed.



End CommitFacts.





(** X4.  A commit is classified "ignore" exactly when its subject is
    empty, starts with "Merge ", or is a conventional subject whose type
    word is "ignore" in any letter case; the type inferred for a subject
    that is not conventional is never "ignore". *)
Theorem ignored_exactly (c : raw_commit) :
  c_type (parse_commit_message c) = "ignore"
  <-> (r_subject c = ""
       \/ startswith (r_subject c) "Merge " = true
       \/ exists ty scope text,
            match_conventional (r_subject c) = Some (ty, scope, text)
            /\ lower ty = "ignore").
Proof.
  unfold parse_commit_message.
  destruct (is_empty (r_subject c)) eqn:Hempty.
  { apply is_empty_true in Hempty. split; [tauto|done]. }
  destruct (startswith (r_subject c) "Merge ") eqn:Hmerge.
  { split; [tauto|done]. }
  assert (r_subject c <> "") as Hne by (by destruct (r_subject c)).
  destruct (match_conventional (r_subject c)) as [[[ty scope] text]|] eqn:Hconv; simpl.
  - split.
    + intros Hty. right. right. by exists ty, scope, text.
    + intros [?|[?|(ty' & scope' & text' & [= -> -> ->] & Hty)]]; done.
  - split.
    + intros Hty. by apply infer_never_ignore in Hty.
    + intros [?|[?|(ty' & scope' & text' & ? & Hty)]]; done.
Qed.

(** ** From the git log to the text of the entry *)

Section Pipeline.

Lemma entry_read_back changes version today :
  single_line version ->
  (forall category items item,
     In category ordered_categories ->
     changes !! category = Some items -> In item items -> single_line item) ->
  split_lines (format_changelog changes version today)
  = entry_lines changes version today ++ [""].
Proof.
  intros Hversion Hitems.
  rewrite format_changelog_unlines. apply split_lines_unlines.
  unfold entry_lines, ordered_categories. cbn [flat_map].
  constructor.
  - unfold single_line. rewrite !all_chars_append, Hversion.
    by rewrite (isoformat_single_line today).
  - rewrite !Forall_app.
    repeat split; try done;
      (apply section_lines_single; [done|]);
      intros items item; apply Hitems; simpl; tauto.
Qed.

Lemma entry_headers changes version today :
  List.filter is_category_header (entry_lines changes version today ++ [""])
  = (fun category => "### " +:+ category)
      <$> List.filter (has_items changes) ordered_categories.
Proof.
  unfold entry_lines, ordered_categories.
  cbn [flat_map List.filter app].
  change (is_category_header ("## [" +:+ version +:+ "] - " +:+ isoformat today))
    with false.
  cbn [app]. rewrite !List.filter_app, !section_headers. simpl.
  by repeat destruct (has_items changes _).
Qed.

Lemma entry_well_sectioned changes version today :
  well_sectioned (entry_lines changes version today ++ [""]) = true.
Proof.
  unfold entry_lines, ordered_categories. cbn [flat_map].
  rewrite <- app_comm_cons. cbn [well_sectioned].
  change (is_category_header ("## [" +:+ version +:+ "] - " +:+ isoformat today))
    with false.
  cbn [andb]. by rewrite <- !app_assoc, !well_sectioned_section.
Qed.

Lemma first_line_single s : single_line (first_line s).
Proof. exact (span_all_chars _ s). Qed.

Lemma match_description_single r d : match_description r = Some d -> single_line d.
Proof.
  unfold match_description.
  pose proof (span_all_chars (fun c => negb (c =? LF)%char) r) as H.
  destruct (span _ r) as [d' t]. simpl in H.
  destruct (is_empty d'); [done|]. destruct (semver.at_end t); [|done].
  by intros [= <-].
Qed.

Lemma match_conventional_single subject ty scope d :
  match_conventional subject = Some (ty, scope, d) -> single_line d.
Proof.
  unfold match_conventional.
  destruct (span is_word subject) as [w r1].
  destruct (is_empty w); [done|].
  destruct (match_scope r1) as [[sc r2]|]; [|done]. cbn -[drop].
  destruct (startswith r2 ": "); [|done].
  destruct (match_description (drop 2 r2)) as [d'|] eqn:Hd; [|done].
  cbn. intros [= _ _ <-]. by apply match_description_single in Hd.
Qed.

Lemma digits_single_line n : all_chars is_digit n = true -> single_line n.
Proof. apply all_chars_impl, digit_not_lf. Qed.

Lemma extract_pr_digits subject body n :
  extract_pr_number subject body = Some n -> all_chars is_digit n = true.
Proof.
  unfold extract_pr_number. destruct (search_pr subject) as [m|] eqn:Hs.
  - intros [= <-]. by destruct (search_pr_shape _ _ Hs) as (_ & ? & _).
  - destruct (is_empty body); [done|]. intros Hb.
    by destruct (search_pr_shape _ _ Hb) as (_ & ? & _).
Qed.

(** What a commit of the git log is rendered as is a single line. *)
Lemma rendered_single_line g :
  single_line (render_entry (parse_commit_message (raw_of_git g))).
Proof.
  unfold render_entry, single_line. rewrite all_chars_append.
  apply andb_true_iff. split.
  - unfold parse_commit_message. cbn [r_subject raw_of_git].
    destruct (is_empty _); [apply first_line_single|].
    destruct (startswith _ _); [apply first_line_single|].
    destruct (match_conventional _) as [[[ty scope] d]|] eqn:Hconv.
    + by apply match_conventional_single in Hconv.
    + apply first_line_single.
  - destruct (c_pr _) as [n|] eqn:Hpr; [|done].
    destruct (is_empty n); [done|].
    rewrite !all_chars_append. apply andb_true_iff. split; [done|].
    apply andb_true_iff. split; [|done].
    apply digits_single_line. revert Hpr. unfold parse_commit_message.
    destruct (is_empty _); [done|]. destruct (startswith _ _); [done|].
    destruct (match_conventional _) as [[[ty scope] d]|];
      simpl; apply extract_pr_digits.
Qed.

Lemma category_of_name category :
  In category ordered_categories -> exists k, category = category_name k.
Proof.
  intros Hin. repeat (destruct Hin as [<-|Hin]); [..|done].
  - by exists Added.
  - by exists Changed.
  - by exists Deprecated.
  - by exists Removed.
  - by exists Fixed.
  - by exists Security.
Qed.

Lemma grouped_items_single_line git category items item :
  In category ordered_categories ->
  group_commits (parse_commits git).1 !! category = Some items ->
  In item items -> single_line item.
Proof.
  intros (k & ->)%category_of_name. rewrite group_commits_lookup.
  intros [= <-] Hin. apply list_elem_of_In, list_elem_of_fmap in Hin.
  destruct Hin as (c & -> & Hc). apply list_elem_of_In, List.filter_In in Hc.
  destruct Hc as [Hc _]. destruct git as [error|log]; [done|]. simpl in Hc.
  apply List.filter_In in Hc as [Hc _].
  apply list_elem_of_In, list_elem_of_fmap in Hc. destruct Hc as (raw & -> & Hraw).
  apply list_elem_of_fmap in Hraw. destruct Hraw as (g & -> & _).
  apply rendered_single_line.
Qed.

End Pipeline.

(** X5.  Whatever the git log, the entry formatted from the grouped
    commits has no empty section: when the version is a single line, the
    lines of the entry that start with "### " are exactly the headers of the
    categories that received commits, in the fixed order, and each of them
    is followed, blank lines apart, by an item.  Subjects are first lines of
    commit messages and references are digits, so no item spans two
    lines. *)
Theorem pipeline_entry_sections git version today :
  single_line version ->
  List.filter is_category_header
    (split_lines (format_changelog (group_commits (parse_commits git).1) version today))
  = (fun category => "### " +:+ category)
      <$> List.filter (has_items (group_commits (parse_commits git).1)) ordered_categories
  /\ well_sectioned
       (split_lines (format_changelog (group_commits (parse_commits git).1) version today))
     = true.
Proof.
  intros Hversion.
  rewrite (entry_read_back _ _ _ Hversion (grouped_items_single_line git)).
  split; [apply entry_headers|apply entry_well_sectioned].
Qed.

Lemma pipeline_entry_sections_witness :
  well_sectioned
    (split_lines
       (format_changelog
          (group_commits
             (parse_commits
                (GitLog [mkGitCommit "6e5f" ("fix: two" +:+ nl +:+ "### Added") "dev"])).1)
          "1.0.1" some_day))
  = true.
Proof.
  apply (pipeline_entry_sections
           (GitLog [mkGitCommit "6e5f" ("fix: two" +:+ nl +:+ "### Added") "dev"])
           "1.0.1" some_day).
  reflexivity.
Defined.

(** ** The link footer with a plain URL *)

Section PlainFooter.

Lemma parse_from_literal groups s :
  no_backslash s ->
  exists pieces,
    Template.parse_from groups Template.Normal s = Ok pieces
    /\ forall matched, Template.expand pieces matched = s.
Proof.
  unfold no_backslash. induction s as [|c r IH]; intros H.
  - by exists [].
  - simpl in H. apply andb_true_iff in H as [Hc Hr].
    destruct (IH Hr) as (pieces & Hparse & Hexpand).
    exists (Template.Lit (String c "") :: pieces). split.
    + simpl. unfold Template.plain.
      apply negb_true_iff in Hc. rewrite Hc. simpl. by rewrite Hparse.
    + intros matched. unfold Template.expand. rewrite fmap_cons.
      cbn [Py.concat fold_right]. fold (Py.concat). unfold Template.expand in Hexpand.
      by rewrite Hexpand.
Qed.

Lemma parse_from_cons groups st c r :
  Template.parse_from groups st (String c r)
  = '(st', ps) ← Template.step groups st c;
    rest ← Template.parse_from groups st' r;
    Ok (ps ++ rest).
Proof. reflexivity. Qed.

Lemma sub_from_ext match_at f g skip s :
  (forall matched, f matched = g matched) ->
  Template.sub_from match_at f skip s = Template.sub_from match_at g skip s.
Proof.
  intros Hfg. revert skip. induction s as [|c r IH]; intros skip; [done|].
  simpl. destruct skip as [|k]; [|apply IH].
  destruct (match_at (String c r)) as [m|]; by rewrite ?Hfg, IH.
Qed.

(** Without a match anywhere, [re.sub] returns its text. *)
Lemma sub_from_no_match match_at repl s :
  (forall a b, s = a +:+ b -> match_at b = None) ->
  Template.sub_from match_at repl 0 s = s.
Proof.
  induction s as [|c r IH]; intros H; [done|].
  simpl. rewrite (H "" (String c r)) by done.
  rewrite IH; [done|]. intros a b ->. by apply (H (String c a) b).
Qed.

Lemma contains_false_suffix needle a b :
  contains needle (a +:+ b) = false -> String.prefix needle b = false.
Proof.
  induction a as [|c a IH].
  - rewrite append_empty_l, contains_unfold. by intros [? _]%orb_false_iff.
  - rewrite append_cons, contains_cons. intros [_ ?]%orb_false_iff. by apply IH.
Qed.

(** The links are written as they are when nothing in them is an escape. *)
Lemma rewrite_links_literal pkg url content version :
  repository_url pkg = Ok url -> no_backslash url -> no_backslash version ->
  rewrite_links pkg content version
  = Ok (if contains "[Unreleased]:" content then
          Template.sub match_unreleased_line
            (fun matched => matched +:+ version_link url version +:+ nl)
            (Template.sub match_unreleased_link
               (fun _ => unreleased_link url version) content)
        else
          content +:+ nl +:+ nl +:+ "## Links" +:+ nl +:+ unreleased_link url version
          +:+ nl +:+ version_link url version +:+ nl).
Proof.
  intros Hurl Hu Hv.
  assert (no_backslash (unreleased_link url version)) as H1.
  { unfold no_backslash, unreleased_link in *. by rewrite !all_chars_append, Hu, Hv. }
  assert (no_backslash (version +:+ "]: " +:+ url +:+ "/releases/tag/v" +:+ version +:+ nl))
    as H2.
  { unfold no_backslash in *. by rewrite !all_chars_append, Hu, Hv. }
  destruct (parse_from_literal 0 _ H1) as (t1 & Hp1 & He1).
  destruct (parse_from_literal 1 _ H2) as (t2 & Hp2 & He2).
  assert (Template.parse 1 ("\1" +:+ version_link url version +:+ nl)
          = Ok ([Template.Group 1; Template.Lit "["] ++ t2)) as Hp2'.
  { unfold Template.parse, version_link.
    change ("\1" +:+ ("[" +:+ version +:+ "]: " +:+ url +:+ "/releases/tag/v" +:+ version)
            +:+ nl)
      with (String "\"%char (String "1"%char (String "["%char
              ((version +:+ "]: " +:+ url +:+ "/releases/tag/v" +:+ version) +:+ nl)))).
    rewrite !append_assoc, parse_from_cons.
    change (Template.step 1 Template.Normal "\"%char) with (Ok (Template.Escape, @nil Template.piece)).
    unfold mbind at 1, result_bind at 1. cbv beta iota. rewrite parse_from_cons.
    change (Template.step 1 Template.Escape "1"%char) with (Ok (Template.Digit 1, @nil Template.piece)).
    unfold mbind at 2, result_bind at 2. cbv beta iota. rewrite parse_from_cons.
    change (Template.step 1 (Template.Digit 1) "["%char)
      with (Ok (Template.Normal, [Template.Group 1; Template.Lit "["])).
    unfold mbind at 3, result_bind at 3. cbv beta iota. rewrite Hp2.
    reflexivity. }
  unfold rewrite_links. rewrite Hurl.
  unfold mbind at 1, result_bind at 1. cbv beta iota zeta.
  destruct (contains "[Unreleased]:" content); [|done].
  fold (Template.parse 0 (unreleased_link url version)) in Hp1.
  rewrite Hp1. unfold mbind at 1, result_bind at 1. cbv beta iota.
  rewrite Hp2'. unfold mbind, result_bind. cbv beta iota.
  f_equal. unfold Template.sub.
  rewrite (sub_from_ext _ (Template.expand t1) (fun _ => unreleased_link url version))
    by done.
  apply sub_from_ext. intros matched.
  unfold Template.expand in *. rewrite fmap_app, fmap_cons, fmap_cons.
  cbn [Py.concat fold_right app fmap list_fmap]. fold (Py.concat). rewrite He2.
  unfold version_link. by rewrite !append_assoc.
Qed.

End PlainFooter.

(** X6.  When the repository URL resolves and neither it nor the version
    contains a backslash, the footer update does not fail and prints no
    warning, and the link lines are written verbatim: on a document
    without "[Unreleased]:" a Links section with the two lines is appended
    to the unchanged text; on a document that has "[Unreleased]:" but
    nowhere "[Unreleased]: " with the space after it, the text is returned
    as it is, without links. *)
Theorem plain_links_verbatim pkg url content version :
  repository_url pkg = Ok url -> no_backslash url -> no_backslash version ->
  (contains "[Unreleased]:" content = false ->
   update_version_links pkg content version
   = (content +:+ nl +:+ nl +:+ "## Links" +:+ nl
      +:+ "[Unreleased]: " +:+ url +:+ "/compare/v" +:+ version +:+ "...HEAD" +:+ nl
      +:+ "[" +:+ version +:+ "]: " +:+ url +:+ "/releases/tag/v" +:+ version +:+ nl,
      []))
  /\ (contains "[Unreleased]:" content = true ->
      contains "[Unreleased]: " content = false ->
      update_version_links pkg content version = (content, []))
  /\ exists updated, update_version_links pkg content version = (updated, []).
Proof.
  intros Hurl Hu Hv. unfold update_version_links.
  rewrite (rewrite_links_literal _ _ _ _ Hurl Hu Hv).
  split; [|split].
  - intros ->. unfold unreleased_link, version_link. by rewrite !append_assoc.
  - intros -> Hnone. unfold Template.sub.
    rewrite (sub_from_no_match match_unreleased_link).
    + rewrite (sub_from_no_match match_unreleased_line); [done|].
      intros a b ->. unfold match_unreleased_line, startswith.
      by rewrite (contains_false_suffix _ _ _ Hnone).
    + intros a b ->. unfold match_unreleased_link, startswith.
      by rewrite (contains_false_suffix _ _ _ Hnone).
  - by eexists.
Qed.

Lemma plain_links_verbatim_witness :
  update_version_links NoPackageJson "# Changelog" "1.1.0"
  = ("# Changelog" +:+ nl +:+ nl +:+ "## Links" +:+ nl
     +:+ "[Unreleased]: " +:+ default_url +:+ "/compare/v" +:+ "1.1.0" +:+ "...HEAD" +:+ nl
     +:+ "[" +:+ "1.1.0" +:+ "]: " +:+ default_url +:+ "/releases/tag/v" +:+ "1.1.0" +:+ nl,
     [])
  /\ update_version_links NoPackageJson "[Unreleased]:none" "1.1.0"
     = ("[Unreleased]:none", []).
Proof.
  split.
  - apply (plain_links_verbatim NoPackageJson default_url "# Changelog" "1.1.0");
      reflexivity.
  - apply (plain_links_verbatim NoPackageJson default_url "[Unreleased]:none" "1.1.0");
      reflexivity.
Defined.

(** ** The inline functions *)

Section InlineFacts.

Lemma filter_all {A} (f : A -> bool) (l : list A) :
  Forall (fun x => f x = true) l -> List.filter f l = l.
Proof. induction 1 as [|x l Hx _ IH]; [done|]. simpl. by rewrite Hx, IH. Qed.

Lemma filter_none {A} (f : A -> bool) (l : list A) :
  Forall (fun x => f x = false) l -> List.filter f l = [].
Proof. induction 1 as [|x l Hx _ IH]; [done|]. simpl. by rewrite Hx. Qed.

Lemma inline_commits_shape git :
  Forall (fun c => c_type c = "change" /\ c_pr c = None) (Inline.parse_commits git).
Proof.
  destruct git as [error|log]; [constructor|]. simpl.
  apply Forall_fmap, Forall_forall. by intros g _.
Qed.

Lemma inline_changed git :
  group_commits (Inline.parse_commits git) !! "Changed"
  = Some (c_subject <$> Inline.parse_commits git).
Proof.
  rewrite (group_commits_lookup _ Changed).
  pose proof (inline_commits_shape git) as Hshape.
  rewrite filter_all.
  - f_equal. induction Hshape as [|c l [_ Hpr] _ IH]; [done|].
    rewrite !fmap_cons, IH. f_equal.
    unfold render_entry. rewrite Hpr. apply append_empty_r.
  - eapply Forall_impl; [exact Hshape|]. intros c [Hty _].
    unfold routed_to. by rewrite Hty.
Qed.

Lemma inline_others git k :
  k <> Changed ->
  group_commits (Inline.parse_commits git) !! category_name k = Some [].
Proof.
  intros Hk. rewrite group_commits_lookup, filter_none; [done|].
  eapply Forall_impl; [exact (inline_commits_shape git)|]. intros c [Hty _].
  unfold routed_to. rewrite Hty. by destruct k.
Qed.

End InlineFacts.

(** X7.  With the inline functions every commit whose first line does not
    start with "Merge " is listed under Changed by that first line, in log
    order and with an empty first line included, and the other five
    categories stay empty; and the automatic version is the one [utils]
    resolves for a log without commits: always the patch bump. *)
Theorem inline_lists_all_as_changed :
  (forall log changes,
     (Inline.get_changes_from_git (GitLog log)).1 = Some changes ->
     changes !! "Changed"
     = Some ((fun g => first_line (message g))
               <$> List.filter
                     (fun g => negb (startswith (first_line (message g)) "Merge ")) log)
     /\ forall k, k <> Changed -> changes !! category_name k = Some [])
  /\ (forall stdin current_version auto_mode force_mode,
        force_mode || auto_mode = true ->
        (Inline.get_next_version stdin current_version auto_mode force_mode).1
        = bump_with semver.bump_patch current_version
        /\ (Inline.get_next_version stdin current_version auto_mode force_mode).1
           = (get_next_version (GitLog []) stdin current_version auto_mode force_mode).1).
Proof.
  split.
  - intros log changes. unfold Inline.get_changes_from_git.
    destruct (Inline.parse_commits (GitLog log)) as [|c l] eqn:Hparse; [done|].
    simpl. intros [= <-]. rewrite <- Hparse. split.
    + rewrite inline_changed. f_equal. simpl. by rewrite <- list_fmap_compose.
    + intros k Hk. by apply inline_others.
  - intros stdin current_version auto_mode force_mode Hmode. split.
    + unfold Inline.get_next_version. by rewrite Hmode.
    + unfold Inline.get_next_version. rewrite Hmode.
      rewrite get_next_version_automatic by (by rewrite orb_comm).
      simpl. unfold auto_bump, bump_with. simpl.
      by destruct (semver.parse current_version).
Qed.

Lemma inline_lists_all_as_changed_witness :
  (Inline.get_changes_from_git (GitLog scenario_log)).1
    ≫= (fun changes => changes !! "Changed")
  = Some ["feat: add login"; "fix: crash on start #42"; "docs: typo"]
  /\ (Inline.get_next_version [] "1.2.3" true false).1 = Ok "1.2.4".
Proof.
  destruct inline_lists_all_as_changed as [Hchanged Hversion]. split.
  - destruct (Inline.get_changes_from_git (GitLog scenario_log)).1 as [changes|] eqn:E;
      [|by vm_compute in E].
    change (changes !! "Changed"
            = Some ["feat: add login"; "fix: crash on start #42"; "docs: typo"]).
    destruct (Hchanged scenario_log changes E) as [-> _]. reflexivity.
  - destruct (Hversion [] "1.2.3" true false eq_refl) as [-> _]. reflexivity.
Defined.

(** ** Inserting twice *)

Section FirstAnchor.

Lemma prefix_long p x y :
  (String.length p <= String.length x)%nat ->
  String.prefix p (x +:+ y) = String.prefix p x.
Proof.
  revert x. induction p as [|a p IH]; intros x Hlen.
  - by rewrite !prefix_empty.
  - destruct x as [|b x]; [simpl in Hlen; lia|].
    rewrite append_cons. cbn [String.prefix].
    destruct (ascii_dec a b); [|done]. apply IH. simpl in Hlen. lia.
Qed.

(** The anchor text does not overlap itself. *)
Lemma anchor_no_overlap P :
  P <> "" -> String.prefix anchor (P +:+ anchor) = true -> exists P', P = anchor +:+ P'.
Proof.
  intros Hne. unfold anchor.
  destruct P as [|c1 [|c2 [|c3 [|c4 [|c5 [|c6 [|c7 [|c8 [|c9 [|c10 [|c11 [|c12
    [|c13 [|c14 [|c15 P']]]]]]]]]]]]]]]; [done|..];
    rewrite ?append_cons, ?append_empty_l; cbn [String.prefix];
    repeat match goal with
           | |- context [ascii_dec ?a ?b] =>
               let E := fresh "E" in
               destruct (ascii_dec a b) as [E|]; [try discriminate E; try subst|done]
           end.
  intros _. by exists P'.
Qed.

Lemma span_fst_stop p s d rest :
  p d = false -> (span p (s +:+ String d rest)).1 = (span p s).1.
Proof.
  intros Hd. induction s as [|c s IH].
  - rewrite append_empty_l. simpl. by rewrite Hd.
  - rewrite append_cons. simpl. destruct (p c); [|done].
    destruct (span p (s +:+ String d rest)), (span p s). simpl in *. by rewrite IH.
Qed.

Lemma match_anchor_fst s :
  match_anchor s =
  if startswith s anchor then
    k ← last_lf_end (span is_space (drop (String.length anchor) s)).1;
    Some (String.length anchor + k)%nat
  else None.
Proof.
  unfold match_anchor. destruct (startswith s anchor); [|done].
  by destruct (span is_space (drop (String.length anchor) s)).
Qed.

(** Whether the pattern matches before a later anchor does not depend on
    what follows that anchor. *)
Lemma match_anchor_stable P t1 t2 :
  P <> "" ->
  match_anchor (P +:+ anchor +:+ t1) = match_anchor (P +:+ anchor +:+ t2).
Proof.
  intros Hne. rewrite !match_anchor_fst. unfold startswith.
  rewrite <- !append_assoc.
  rewrite !(prefix_long anchor (P +:+ anchor)) by (rewrite length_append; lia).
  destruct (String.prefix anchor (P +:+ anchor)) eqn:E; [|done].
  destruct (anchor_no_overlap P Hne E) as (P' & ->).
  rewrite !append_assoc, !drop_length_append.
  change (anchor +:+ t1) with (String "#"%char ("# [Unreleased]" +:+ t1)).
  change (anchor +:+ t2) with (String "#"%char ("# [Unreleased]" +:+ t2)).
  by rewrite !span_fst_stop.
Qed.

Lemma last_lf_end_snoc w : last_lf_end (w +:+ nl) = Some (S (String.length w)).
Proof.
  induction w as [|c w IH]; [done|].
  rewrite append_cons. simpl. by rewrite IH.
Qed.

(** The pattern matches at an anchor followed by white space, a line feed
    and a character that is not white space, and stops after that line
    feed. *)
Lemma match_anchor_here ws c r :
  all_chars is_space ws = true -> is_space c = false ->
  match_anchor (anchor +:+ ws +:+ nl +:+ String c r)
  = Some (String.length (anchor +:+ ws +:+ nl)).
Proof.
  intros Hws Hc. rewrite match_anchor_fst. unfold startswith.
  rewrite prefix_app, drop_length_append, <- append_assoc.
  assert (all_chars is_space (ws +:+ nl) = true) as Hrun
    by (rewrite all_chars_append, Hws; reflexivity).
  rewrite (span_stop _ _ _ _ Hrun Hc).
  cbn [fst]. rewrite last_lf_end_snoc. simpl. rewrite !length_append.
  f_equal. simpl. lia.
Qed.

Lemma search_anchor_intro B tail k :
  (forall B1 B2, B = B1 +:+ B2 -> B2 <> "" -> match_anchor (B2 +:+ tail) = None) ->
  match_anchor tail = Some k ->
  search_anchor (B +:+ tail) = Some (String.length B + k)%nat.
Proof.
  intros Hfirst Hk. induction B as [|c B IH]; rewrite search_anchor_unfold.
  - by rewrite append_empty_l, Hk.
  - rewrite (Hfirst "" (String c B)) by done. rewrite append_cons.
    rewrite IH; [done|]. intros B1 B2 -> HB2. by apply (Hfirst (String c B1) B2).
Qed.

(** [search_anchor] stops at the first place where the pattern matches. *)
Lemma search_anchor_first content k :
  search_anchor content = Some k ->
  exists B ws after,
    content = B +:+ anchor +:+ ws +:+ nl +:+ after
    /\ all_chars is_space ws = true
    /\ k = String.length (B +:+ anchor +:+ ws +:+ nl)
    /\ forall B1 B2, B = B1 +:+ B2 -> B2 <> "" ->
                     match_anchor (B2 +:+ anchor +:+ ws +:+ nl +:+ after) = None.
Proof.
  revert k. induction content as [|c r IH]; intros k; rewrite search_anchor_unfold.
  - destruct (match_anchor "") eqn:E; [|done]. intros [= <-].
    destruct (match_anchor_position _ _ E) as (ws & after & H & Hws & Hk).
    exists "", ws, after. rewrite !append_empty_l.
    repeat split; try done; intros B1 B2 HB; by destruct B1, B2.
  - destruct (match_anchor (String c r)) eqn:E.
    + intros [= <-].
      destruct (match_anchor_position _ _ E) as (ws & after & H & Hws & Hk).
      exists "", ws, after. rewrite !append_empty_l.
      repeat split; try done; intros B1 B2 HB; by destruct B1, B2.
    + destruct (search_anchor r) as [j|]; [|done]. intros [= <-].
      destruct (IH j eq_refl) as (B & ws & after & -> & Hws & -> & Hfirst).
      exists (String c B), ws, after. rewrite !append_cons. repeat split; try done.
      intros [|b B1] B2 HB HB2.
      * rewrite append_empty_l in HB. subst B2. by rewrite append_cons.
      * rewrite append_cons in HB. injection HB as <- HB. by apply (Hfirst B1 B2).
Qed.

End FirstAnchor.

(** X8.  With the inline [update_changelog_file], inserting an entry keeps
    the whole document around it, and a second insertion puts its entry
    directly after the anchor line, before the first one: after the text up
    to the first anchor line come a blank line, the second entry, the first
    entry and the rest of the document.  The first entry starts with a
    character that is not white space, as every formatted entry does. *)
Theorem inline_inserts_newest_first fs content entry1 entry2 version1 version2 c r :
  changelog fs = Some content ->
  anchored content ->
  entry1 = String c r -> is_space c = false ->
  exists B ws after,
    content = (B +:+ anchor +:+ ws +:+ nl) +:+ after
    /\ all_chars is_space ws = true
    /\ Inline.update_changelog_file fs entry1 version1
       = (Ok (),
          mkFiles (Some ((B +:+ anchor +:+ ws +:+ nl) +:+ nl +:+ entry1 +:+ nl +:+ after))
                  (package fs))
    /\ Inline.update_changelog_file
         (mkFiles (Some ((B +:+ anchor +:+ ws +:+ nl) +:+ nl +:+ entry1 +:+ nl +:+ after))
                  (package fs))
         entry2 version2
       = (Ok (),
          mkFiles (Some ((B +:+ anchor +:+ ws +:+ nl) +:+ nl +:+ nl +:+ entry2 +:+ nl
                         +:+ entry1 +:+ nl +:+ after))
                  (package fs)).
Proof.
  intros Hfile Hanchor -> Hc.
  apply search_anchor_anchored in Hanchor.
  destruct (search_anchor content) as [k|] eqn:Hk; [|done].
  destruct (search_anchor_first _ _ Hk) as (B & ws & after & Hcontent & Hws & -> & Hfirst).
  exists B, ws, after.
  assert (content = (B +:+ anchor +:+ ws +:+ nl) +:+ after) as Hsplit
    by (by rewrite Hcontent, !append_assoc).
  split; [done|]. split; [done|]. split.
  - unfold Inline.update_changelog_file. rewrite Hfile, Hk.
    by rewrite Hsplit, take_length_append, drop_length_append.
  - unfold Inline.update_changelog_file. cbn [changelog package].
    assert (search_anchor ((B +:+ anchor +:+ ws +:+ nl) +:+ nl +:+ String c r +:+ nl +:+ after)
            = Some (String.length ((B +:+ anchor +:+ ws +:+ nl) +:+ nl))) as ->.
    { replace ((B +:+ anchor +:+ ws +:+ nl) +:+ nl +:+ String c r +:+ nl +:+ after)
        with (B +:+ anchor +:+ (ws +:+ nl) +:+ nl +:+ String c (r +:+ nl +:+ after))
        by (by rewrite !append_assoc).
      rewrite (search_anchor_intro B _ (String.length (anchor +:+ (ws +:+ nl) +:+ nl))).
      - f_equal. rewrite !length_append. simpl. lia.
      - intros B1 B2 HB HB2.
        rewrite (match_anchor_stable B2 _ (ws +:+ nl +:+ after) HB2).
        by apply (Hfirst B1 B2).
      - apply match_anchor_here; [|done]. by rewrite all_chars_append, Hws. }
    replace ((B +:+ anchor +:+ ws +:+ nl) +:+ nl +:+ String c r +:+ nl +:+ after)
      with (((B +:+ anchor +:+ ws +:+ nl) +:+ nl) +:+ String c r +:+ nl +:+ after)
      by (by rewrite !append_assoc).
    rewrite take_length_append, drop_length_append.
    by rewrite !append_assoc.
Qed.

Lemma inline_inserts_newest_first_witness :
  exists B ws after,
    small_document = (B +:+ anchor +:+ ws +:+ nl) +:+ after
    /\ all_chars is_space ws = true
    /\ Inline.update_changelog_file (mkFiles (Some small_document) NoPackageJson)
         "## [1.1.0]" "1.1.0"
       = (Ok (),
          mkFiles (Some ((B +:+ anchor +:+ ws +:+ nl) +:+ nl +:+ "## [1.1.0]" +:+ nl +:+ after))
                  NoPackageJson)
    /\ Inline.update_changelog_file
         (mkFiles (Some ((B +:+ anchor +:+ ws +:+ nl) +:+ nl +:+ "## [1.1.0]" +:+ nl +:+ after))
                  NoPackageJson)
         "## [1.2.0]" "1.2.0"
       = (Ok (),
          mkFiles (Some ((B +:+ anchor +:+ ws +:+ nl) +:+ nl +:+ nl +:+ "## [1.2.0]" +:+ nl
                         +:+ "## [1.1.0]" +:+ nl +:+ after))
                  NoPackageJson).
Proof.
  apply (inline_inserts_newest_first (mkFiles (Some small_document) NoPackageJson)
           small_document "## [1.1.0]" "## [1.2.0]" "1.1.0" "1.2.0" "#"%char "# [1.1.0]").
  - reflexivity.
  - apply search_anchor_anchored. vm_compute. discriminate.
  - reflexivity.
  - reflexivity.
Defined.

(** ** Structure of the changelog *)

Section Structure.

Lemma prefix_extend p u y : String.prefix p u = true -> String.prefix p (u +:+ y) = true.
Proof.
  revert u. induction p as [|a p IH]; intros u H; [apply prefix_empty|].
  destruct u as [|b u]; [done|]. rewrite append_cons. cbn [String.prefix] in *.
  destruct (ascii_dec a b); [by apply IH|done].
Qed.

Lemma contains_prefix p s : String.prefix p s = true -> contains p s = true.
Proof. intros H. by rewrite contains_unfold, H. Qed.

Lemma contains_extend p x y : contains p x = true -> contains p (x +:+ y) = true.
Proof.
  induction x as [|c x IH].
  - rewrite contains_unfold, orb_false_r. intros H.
    apply contains_prefix. by apply (prefix_extend p "" y).
  - rewrite contains_cons. intros [H|H]%orb_true_iff.
    + apply contains_prefix. by apply prefix_extend.
    + rewrite append_cons, contains_cons, (IH H). apply orb_true_r.
Qed.

Lemma contains_suffix p x a : contains p a = true -> contains p (x +:+ a) = true.
Proof.
  intros H. induction x as [|c x IH]; [done|].
  rewrite append_cons, contains_cons, IH. apply orb_true_r.
Qed.

(** A text without line feed that starts before a line feed ends before
    it. *)
Lemma prefix_before_lf p u a :
  single_line p -> String.prefix p (u +:+ nl +:+ a) = true -> String.prefix p u = true.
Proof.
  unfold single_line. revert u. induction p as [|c p IH]; intros u Hp H.
  - apply prefix_empty.
  - simpl in Hp. apply andb_true_iff in Hp as [Hc Hp].
    destruct u as [|b u].
    + rewrite append_empty_l in H. change (nl +:+ a) with (String LF a) in H.
      cbn [String.prefix] in H. destruct (ascii_dec c LF) as [->|]; [|done].
      by vm_compute in Hc.
    + rewrite append_cons in H. cbn [String.prefix] in *.
      destruct (ascii_dec c b); [by apply IH|done].
Qed.

Lemma contains_split_lf p x y :
  single_line p -> p <> "" ->
  contains p (x +:+ nl +:+ y) = true -> contains p x = true \/ contains p y = true.
Proof.
  intros Hp Hne. induction x as [|c x IH].
  - rewrite append_empty_l. change (nl +:+ y) with (String LF y).
    rewrite contains_cons. intros [H|H]%orb_true_iff; [|by right].
    apply (prefix_before_lf p "" y Hp) in H. by destruct p.
  - rewrite append_cons, contains_cons. intros [H|H]%orb_true_iff.
    + left. apply contains_prefix. by apply (prefix_before_lf p (String c x) y Hp).
    + destruct (IH H) as [Hx|Hy]; [|by right].
      left. rewrite contains_cons, Hx. apply orb_true_r.
Qed.

(** Text put in after a line feed breaks no occurrence of a text without
    line feed. *)
Lemma contains_insert_lf p h inserted a :
  single_line p ->
  contains p (h +:+ nl +:+ a) = true ->
  contains p (h +:+ nl +:+ inserted +:+ a) = true.
Proof.
  intros Hp. induction h as [|c h IH].
  - rewrite !append_empty_l. change (nl +:+ a) with (String LF a).
    change (nl +:+ inserted +:+ a) with (String LF (inserted +:+ a)).
    rewrite !contains_cons. intros [H|H]%orb_true_iff.
    + apply (prefix_before_lf p "" a Hp) in H.
      apply orb_true_iff. left. by apply (prefix_extend p "").
    + apply orb_true_iff. right. by apply contains_suffix.
  - rewrite !append_cons, !contains_cons. intros [H|H]%orb_true_iff.
    + apply (prefix_before_lf p (String c h) a Hp) in H.
      apply orb_true_iff. left. by apply (prefix_extend p (String c h)).
    + rewrite (IH H). apply orb_true_r.
Qed.

End Structure.

(** X9.  When neither the changelog nor the entry contains
    "[Unreleased]:", so that there is no link to rewrite yet, a document
    that [validate_changelog_structure] accepts is still accepted after a
    successful [update_changelog_file]: the three required texts survive
    the insertion and the footer, whether or not the repository URL
    resolves. *)
Theorem first_release_keeps_structure fs content changelog_entry version fs' out :
  changelog fs = Some content ->
  validate_changelog_structure (Some content) = true ->
  contains "[Unreleased]:" content = false ->
  contains "[Unreleased]:" changelog_entry = false ->
  update_changelog_file fs changelog_entry version = (Ok (), fs', out) ->
  validate_changelog_structure (changelog fs') = true.
Proof.
  intros Hfile Hvalid Hcontent Hentry. unfold update_changelog_file. rewrite Hfile.
  destruct (search_anchor content) as [k|] eqn:Hk; [|done].
  destruct (search_anchor_position _ _ Hk) as (B & ws & after & Hcur & Hws & Hlen).
  assert (content = (B +:+ anchor +:+ ws) +:+ nl +:+ after) as Hsplit
    by (by rewrite Hcur, !append_assoc).
  assert (take k content = (B +:+ anchor +:+ ws) +:+ nl) as ->.
  { rewrite Hlen, Hsplit. rewrite <- (append_assoc _ nl after).
    replace (B +:+ anchor +:+ ws +:+ nl) with ((B +:+ anchor +:+ ws) +:+ nl)
      by (by rewrite !append_assoc).
    apply take_length_append. }
  assert (drop k content = after) as ->.
  { rewrite Hlen, Hsplit. rewrite <- (append_assoc _ nl after).
    replace (B +:+ anchor +:+ ws +:+ nl) with ((B +:+ anchor +:+ ws) +:+ nl)
      by (by rewrite !append_assoc).
    apply drop_length_append. }
  set (h := B +:+ anchor +:+ ws) in *.
  assert (forall p, single_line p ->
            contains p content = true ->
            contains p (((h +:+ nl) +:+ nl +:+ changelog_entry +:+ nl +:+ after)) = true)
    as Hkeep.
  { intros p Hp Hin. rewrite Hsplit in Hin.
    apply (contains_insert_lf p h (nl +:+ changelog_entry +:+ nl) after Hp) in Hin.
    by rewrite !append_assoc in *. }
  assert (contains "[Unreleased]:"
            ((h +:+ nl) +:+ nl +:+ changelog_entry +:+ nl +:+ after) = false) as Hnone.
  { match goal with |- ?t = false => destruct t eqn:E; [exfalso|done] end.
    rewrite append_assoc in E.
    apply contains_split_lf in E as [E|E]; [| |done|done].
    { apply (contains_extend _ h (nl +:+ after)) in E.
      rewrite <- Hsplit in E. congruence. }
    apply (contains_split_lf _ "") in E as [E|E]; [done| |done|done].
    apply contains_split_lf in E as [E|E]; [congruence| |done|done].
    apply (contains_suffix _ (h +:+ nl)) in E.
    rewrite append_assoc, <- Hsplit in E. congruence. }
  unfold update_version_links, rewrite_links. rewrite Hnone.
  unfold validate_changelog_structure in *. cbn [forallb] in *.
  apply andb_true_iff in Hvalid as [H1 Hvalid].
  apply andb_true_iff in Hvalid as [H2 Hvalid].
  apply andb_true_iff in Hvalid as [H3 _].
  destruct (repository_url (package fs)) as [url|e]; simpl; intros [= <- _];
    cbn [changelog].
  - rewrite !contains_extend; [done|by apply Hkeep..].
  - rewrite !Hkeep; done.
Qed.

Lemma first_release_keeps_structure_witness :
  validate_changelog_structure
    (changelog
       (update_changelog_file
          (mkFiles (Some ("# Changelog" +:+ nl
                          +:+ "The format is based on [Keep a Changelog]" +:+ nl
                          +:+ "## [Unreleased]" +:+ nl))
                   NoPackageJson)
          "## [1.1.0]" "1.1.0").1.2)
  = true.
Proof.
  apply (first_release_keeps_structure
           (mkFiles (Some ("# Changelog" +:+ nl
                           +:+ "The format is based on [Keep a Changelog]" +:+ nl
                           +:+ "## [Unreleased]" +:+ nl))
                    NoPackageJson)
           ("# Changelog" +:+ nl +:+ "The format is based on [Keep a Changelog]" +:+ nl
            +:+ "## [Unreleased]" +:+ nl)
           "## [1.1.0]" "1.1.0" _ []);
    reflexivity.
Defined.

(** ** Manual entry *)

Section ManualEntry.

Lemma read_items_typed items rest :
  Forall clean_item items -> read_items (typed items ++ rest) = Ok (items, rest).
Proof.
  unfold typed. induction 1 as [|item items [Hstrip Hne] _ IH]; [done|].
  rewrite <- !app_comm_cons. cbn [read_items]. rewrite Hstrip.
  rewrite (is_empty_false _ Hne). rewrite <- app_assoc in IH. rewrite <- app_assoc.
  by rewrite IH.
Qed.

Lemma read_items_no_blank stdin :
  Forall (fun line => strip line <> "") stdin -> read_items stdin = Raise EOFError.
Proof.
  induction 1 as [|line stdin Hline _ IH]; [done|].
  cbn [read_items]. by rewrite (is_empty_false _ Hline), IH.
Qed.

End ManualEntry.

(** X10.  Manual entry gives back what was typed: when the items of the six
    categories are typed in order, each list closed by a blank line, and no
    item is blank or has white space around it, [get_changes_manually]
    returns exactly those six lists under their categories and leaves the
    rest of the console input unread.  When no blank line is ever typed the
    input runs out and [EOFError] is raised. *)
Theorem manual_entry_round_trip :
  (forall added changed deprecated removed fixed security rest,
     Forall clean_item added -> Forall clean_item changed ->
     Forall clean_item deprecated -> Forall clean_item removed ->
     Forall clean_item fixed -> Forall clean_item security ->
     exists changes,
       (get_changes_manually
          (typed added ++ typed changed ++ typed deprecated ++ typed removed
           ++ typed fixed ++ typed security ++ rest)).1 = Ok (changes, rest)
       /\ changes !! "Added" = Some added
       /\ changes !! "Changed" = Some changed
       /\ changes !! "Deprecated" = Some deprecated
       /\ changes !! "Removed" = Some removed
       /\ changes !! "Fixed" = Some fixed
       /\ changes !! "Security" = Some security)
  /\ (forall stdin,
        Forall (fun line => strip line <> "") stdin ->
        (get_changes_manually stdin).1 = Raise EOFError).
Proof.
  split.
  - intros added changed deprecated removed fixed security rest Ha Hc Hd Hr Hf Hs.
    unfold get_changes_manually, descriptions. cbn [read_categories].
    rewrite (read_items_typed _ _ Ha). cbn [read_categories].
    rewrite (read_items_typed _ _ Hc). cbn [read_categories].
    rewrite (read_items_typed _ _ Hd). cbn [read_categories].
    rewrite (read_items_typed _ _ Hr). cbn [read_categories].
    rewrite (read_items_typed _ _ Hf). cbn [read_categories].
    rewrite (read_items_typed _ _ Hs). cbn [read_categories fst].
    eexists. split; [reflexivity|].
    repeat split; by simplify_map_eq.
  - intros stdin Hstdin. unfold get_changes_manually, descriptions.
    cbn [read_categories]. by rewrite (read_items_no_blank _ Hstdin).
Qed.

Lemma manual_entry_round_trip_witness :
  exists changes,
    (get_changes_manually
       (typed ["new login"] ++ typed [] ++ typed [] ++ typed [] ++ typed ["crash"]
        ++ typed [] ++ ["y"])).1 = Ok (changes, ["y"])
    /\ changes !! "Added" = Some ["new login"]
    /\ changes !! "Changed" = Some []
    /\ changes !! "Deprecated" = Some []
    /\ changes !! "Removed" = Some []
    /\ changes !! "Fixed" = Some ["crash"]
    /\ changes !! "Security" = Some [].
Proof.
  destruct manual_entry_round_trip as [H _].
  apply (H ["new login"] [] [] [] ["crash"] [] ["y"]);
    repeat constructor; done.
Defined.

(** ** The whole run *)

Section WholeRun.

Lemma update_changelog_file_package fs changelog_entry version :
  package (update_changelog_file fs changelog_entry version).1.2 = package fs.
Proof.
  unfold update_changelog_file.
  destruct (changelog fs) as [content|]; [|done].
  destruct (search_anchor content); [|done].
  by destruct (update_version_links _ _ _).
Qed.

Lemma update_changelog_with_files fs stdin changes version today dry_run force :
  package (update_changelog_with fs stdin changes version today dry_run force).1.2
  = package fs
  /\ (dry_run = true ->
      (update_changelog_with fs stdin changes version today dry_run force).1.2 = fs)
  /\ ((update_changelog_with fs stdin changes version today dry_run force).1.1
      <> Returned ->
      (update_changelog_with fs stdin changes version today dry_run force).1.1
      = Exited 1).
Proof.
  unfold update_changelog_with.
  destruct (no_changes changes); [done|].
  destruct dry_run; [done|].
  pose proof (update_changelog_file_package fs
                (format_changelog (default ∅ changes) version today) version) as Hpkg.
  destruct (update_changelog_file fs _ version) as [[[[]|e] fs'] out'];
    cbn [fst snd] in Hpkg;
    (destruct force; cbn [negb];
     [|destruct (input stdin) as [[line rest]|e']; [destruct (in_list _ _)|]]);
    cbn [fst snd]; repeat split; done.
Qed.

(** A confirmation other than "y" or "yes", or none at all, ends the run
    before the write. *)
Lemma update_changelog_with_declined fs stdin changes version today dry_run :
  (forall line rest,
     stdin = line :: rest -> in_list (lower (strip line)) ["y"; "yes"] = false) ->
  (update_changelog_with fs stdin changes version today dry_run false).1.2 = fs.
Proof.
  intros Hdeclined. unfold update_changelog_with.
  destruct (no_changes changes); [done|].
  destruct dry_run; [done|]. cbn [negb].
  destruct stdin as [|line rest]; [done|]. cbn [input].
  by rewrite (Hdeclined line rest).
Qed.

(** In automatic mode the version is determined without the console. *)
Lemma determine_version_automatic fs git stdin version auto force :
  auto || force = true ->
  determine_version fs git stdin version auto force
  = ((determine_version fs git [] version auto force).1.1, stdin,
     (determine_version fs git [] version auto force).2).
Proof.
  intros Hauto. unfold determine_version.
  assert (negb auto && negb force = false) as -> by (by destruct auto, force).
  destruct version as [[|c r]|]; try done;
    (destruct (current_version_of (package fs)) as [[| | |current| |]|e]; [..|done]);
    rewrite ?(get_next_version_automatic git stdin) by done;
    rewrite ?(get_next_version_automatic git []) by done;
    try (by destruct (auto_bump _ _));
    unfold get_next_version_not_text;
    by assert (negb (auto || force) && negb force = false) as ->
      by (by destruct auto, force).
Qed.

(** The confirmation is the only line that is read after the changes are
    known. *)
Lemma update_changelog_with_one_line fs stdin changes version today dry_run force :
  update_changelog_with fs stdin changes version today dry_run force
  = update_changelog_with fs (firstn 1 stdin) changes version today dry_run force.
Proof. by destruct stdin. Qed.

Lemma update_changelog_with_force fs stdin1 stdin2 changes version today dry_run :
  update_changelog_with fs stdin1 changes version today dry_run true
  = update_changelog_with fs stdin2 changes version today dry_run true.
Proof. reflexivity. Qed.

Lemma update_changelog_automatic_one_line fs git stdin today version manual dry_run
    verbose force :
  update_changelog fs git stdin today version true manual dry_run verbose force
  = update_changelog fs git (firstn 1 stdin) today version true manual dry_run verbose
      force.
Proof.
  unfold update_changelog.
  destruct (changelog fs) as [content|]; [|done].
  rewrite (determine_version_automatic fs git stdin) by done.
  rewrite (determine_version_automatic fs git (firstn 1 stdin)) by done.
  destruct (determine_version fs git [] version true force) as [[[next|] stdin'] out1];
    [|done].
  cbn [fst snd]. destruct (validate_version next); [|done]. cbn [negb orb].
  destruct (get_changes_from_git git) as [changes out4].
  by rewrite (update_changelog_with_one_line fs stdin).
Qed.

End WholeRun.

(** X11.  A run of [update_changelog] never writes [package.json]; a dry
    run leaves both files as they were; a run that does not return
    normally exits with status 1; without CHANGELOG.md the run exits with
    status 1 and writes nothing; and in automatic mode without [force], a
    run whose confirmation is not "y" or "yes" (in any letter case, white
    space around it apart), or is missing, leaves both files as they
    were. *)
Theorem update_changelog_safe fs git stdin today version auto manual dry_run verbose force :
  package (update_changelog fs git stdin today version auto manual dry_run verbose force).1.2
  = package fs
  /\ (dry_run = true ->
      (update_changelog fs git stdin today version auto manual dry_run verbose force).1.2
      = fs)
  /\ ((update_changelog fs git stdin today version auto manual dry_run verbose force).1.1
      <> Returned ->
      (update_changelog fs git stdin today version auto manual dry_run verbose force).1.1
      = Exited 1)
  /\ (changelog fs = None ->
      (update_changelog fs git stdin today version auto manual dry_run verbose force).1.1
      = Exited 1
      /\ (update_changelog fs git stdin today version auto manual dry_run verbose force).1.2
         = fs)
  /\ (auto = true -> force = false ->
      (forall line rest,
         stdin = line :: rest -> in_list (lower (strip line)) ["y"; "yes"] = false) ->
      (update_changelog fs git stdin today version auto manual dry_run verbose force).1.2
      = fs).
Proof.
  split; [|split; [|split; [|split]]].
  5: {
    intros -> -> Hdeclined. unfold update_changelog.
    destruct (changelog fs) as [content|]; [|done].
    rewrite (determine_version_automatic fs git stdin) by done.
    destruct (determine_version fs git [] version true false) as [[[next|] stdin'] out1];
      [|done].
    cbn [fst snd]. destruct (validate_version next); [|done]. cbn [negb orb].
    destruct (get_changes_from_git git) as [changes out4].
    pose proof (update_changelog_with_declined fs stdin changes next today dry_run
                  Hdeclined) as Hfiles.
    by destruct (update_changelog_with fs stdin changes next today dry_run false)
      as [[o fs'] out5]. }
  all: unfold update_changelog.
  all: destruct (changelog fs) as [content|]; [|done].
  all: destruct (determine_version fs git stdin version auto force)
         as [[[next|] stdin'] out1]; [|done].
  all: destruct (validate_version next); [|done].
  all: cbn [negb].
  all: destruct (auto || force).
  all: try (destruct (get_changes_from_git git) as [changes out4];
            pose proof (update_changelog_with_files fs stdin' changes next today
                          dry_run force) as (Hpkg & Hdry & Hfail);
            destruct (update_changelog_with fs stdin' changes next today dry_run force)
              as [[o fs'] out5]; done).
  all: destruct (get_changes_manually stdin') as [[[changes stdin'']|e] out4]; [|done].
  all: pose proof (update_changelog_with_files fs stdin'' (Some changes) next today
                     dry_run force) as (Hpkg & Hdry & Hfail).
  all: by destruct (update_changelog_with fs stdin'' (Some changes) next today dry_run
                      force) as [[o fs'] out5].
Qed.

Lemma update_changelog_safe_witness :
  (update_changelog (mkFiles (Some small_document) pages_package) (GitLog scenario_log)
     [] some_day None true false true false false).1.2
  = mkFiles (Some small_document) pages_package
  /\ (update_changelog (mkFiles (Some "# Changelog") pages_package)
        (GitLog scenario_log) [] some_day None true false false false true).1.1
     = Exited 1
  /\ ((update_changelog (mkFiles None pages_package) (GitLog scenario_log)
         [] some_day None true false false false false).1.1
      = Exited 1
      /\ (update_changelog (mkFiles None pages_package) (GitLog scenario_log)
            [] some_day None true false false false false).1.2
         = mkFiles None pages_package)
  /\ (update_changelog (mkFiles (Some small_document) pages_package)
        (GitLog scenario_log) ["no"] some_day None true false false false false).1.2
     = mkFiles (Some small_document) pages_package.
Proof.
  split; [|split; [|split]].
  - destruct (update_changelog_safe (mkFiles (Some small_document) pages_package)
                (GitLog scenario_log) [] some_day None true false true false false)
      as (_ & Hdry & _).
    apply Hdry. reflexivity.
  - destruct (update_changelog_safe (mkFiles (Some "# Changelog") pages_package)
                (GitLog scenario_log) [] some_day None true false false false true)
      as (_ & _ & Hfail & _).
    apply Hfail. vm_compute. discriminate.
  - destruct (update_changelog_safe (mkFiles None pages_package)
                (GitLog scenario_log) [] some_day None true false false false false)
      as (_ & _ & _ & Hmissing & _).
    apply Hmissing. reflexivity.
  - destruct (update_changelog_safe (mkFiles (Some small_document) pages_package)
                (GitLog scenario_log) ["no"] some_day None true false false false false)
      as (_ & _ & _ & _ & Hdeclined).
    apply Hdeclined; [reflexivity|reflexivity|].
    intros line rest [= <- <-]. reflexivity.
Defined.

(** X12.  With [force] the run never reads the console: its outcome, the
    files it leaves and what it prints are the same whatever is typed. *)
Theorem force_never_reads_console fs git stdin1 stdin2 today version auto manual
    dry_run verbose :
  update_changelog fs git stdin1 today version auto manual dry_run verbose true
  = update_changelog fs git stdin2 today version auto manual dry_run verbose true.
Proof.
  unfold update_changelog.
  destruct (changelog fs) as [content|]; [|done].
  rewrite (determine_version_automatic fs git stdin1) by apply orb_true_r.
  rewrite (determine_version_automatic fs git stdin2) by apply orb_true_r.
  destruct (determine_version fs git [] version auto true) as [[[next|] stdin'] out1];
    [|done].
  cbn [fst snd]. destruct (validate_version next); [|done]. cbn [negb].
  rewrite orb_true_r. destruct (get_changes_from_git git) as [changes out4].
  by rewrite (update_changelog_with_force fs stdin1 stdin2).
Qed.

(** X13.  Unless manual mode is chosen without [--auto], a run of [main]
    reads at most one line from the console, the confirmation: what comes
    after the first line changes nothing of its outcome, of the files or of
    what is printed. *)
Theorem automatic_run_reads_one_line fs git stdin today version auto manual dry_run
    verbose force :
  auto || negb manual = true ->
  main fs git stdin today version auto manual dry_run verbose force
  = main fs git (firstn 1 stdin) today version auto manual dry_run verbose force.
Proof.
  intros Hmode. unfold main.
  assert ((if negb auto && negb manual then true else auto) = true) as ->
    by (by destruct auto, manual).
  apply update_changelog_automatic_one_line.
Qed.

Lemma automatic_run_reads_one_line_witness :
  main (mkFiles (Some small_document) pages_package) (GitLog scenario_log)
    ["yes"; "4"; "9.9.9"] some_day None false false false false false
  = main (mkFiles (Some small_document) pages_package) (GitLog scenario_log)
      ["yes"] some_day None false false false false false.
Proof.
  apply (automatic_run_reads_one_line (mkFiles (Some small_document) pages_package)
           (GitLog scenario_log) ["yes"; "4"; "9.9.9"] some_day None
           false false false false false).
  reflexivity.
Defined.

(** ** Repository information *)

Section RepositoryInfo.

Lemma take_drop_string n s : take n s +:+ drop n s = s.
Proof.
  revert s. induction n as [|n IH]; intros [|c s]; try done.
  simpl. by rewrite append_cons, IH.
Qed.

(** Only the empty text can stand before [".git"] at the end. *)
Lemma at_end_git q : at_end (q +:+ ".git") = true -> q = "".
Proof.
  destruct q as [|a [|b q]]; [done|..].
  - unfold at_end, in_list. cbn [existsb]. rewrite !orb_true_iff.
    intros [H|[H|[H|[H|H]]]]; try done; apply String.eqb_eq in H; done.
  - unfold at_end, in_list. cbn [existsb]. rewrite !orb_true_iff.
    intros [H|[H|[H|[H|H]]]]; try done; apply String.eqb_eq in H;
      apply (f_equal String.length) in H; rewrite !append_cons in H;
      simpl in H; rewrite ?length_append in H; simpl in H; lia.
Qed.

Lemma at_end_plain r :
  all_chars not_lf r = true -> at_end r = true -> r = "" \/ r = ".git".
Proof.
  intros Hr. unfold at_end, in_list. cbn [existsb]. rewrite !orb_true_iff.
  intros [H|[H|[H|[H|H]]]]; try done; apply String.eqb_eq in H; subst r; auto; done.
Qed.

Lemma match_repo_suffixed taken p :
  p <> "" -> all_chars not_lf p = true ->
  match_repo taken (p +:+ ".git") = Some (taken +:+ p).
Proof.
  revert taken. induction p as [|c p IH]; intros taken Hp Hlf; [done|].
  simpl in Hlf. apply andb_prop in Hlf as [Hc Hlf].
  rewrite append_cons. cbn [match_repo]. rewrite Hc.
  destruct (at_end (p +:+ ".git")) eqn:E.
  - apply at_end_git in E as ->. done.
  - destruct p as [|d p]; [done|].
    rewrite IH by done. by rewrite append_assoc.
Qed.

Lemma match_repo_plain taken path :
  path <> "" -> all_chars not_lf path = true ->
  (forall p, p <> "" -> path <> p +:+ ".git") ->
  match_repo taken path = Some (taken +:+ path).
Proof.
  revert taken. induction path as [|c r IH]; intros taken Hpath Hlf Hplain; [done|].
  simpl in Hlf. apply andb_prop in Hlf as [Hc Hlf].
  cbn [match_repo]. rewrite Hc.
  destruct (at_end r) eqn:E.
  - apply at_end_plain in E as [->| ->]; [done| |done].
    by destruct (Hplain (String c "")).
  - rewrite IH; [by rewrite append_assoc|by destruct r|done|].
    intros p Hp ->. by destruct (Hplain (String c p)).
Qed.

(** The repository name is what is left when one [".git"] is taken from
    the end. *)
Lemma match_repo_removesuffix path :
  path <> "" -> path <> ".git" -> all_chars not_lf path = true ->
  match_repo "" path = Some (removesuffix ".git" path).
Proof.
  intros Hpath Hgit Hlf. unfold removesuffix.
  destruct ((_ <=? _)%nat && (_ =? _)%string) eqn:E.
  - apply andb_prop in E as [Hlen Hdrop].
    apply Nat.leb_le in Hlen. apply String.eqb_eq in Hdrop.
    pose proof (take_drop_string (String.length path - String.length ".git") path) as Hsplit.
    rewrite Hdrop in Hsplit.
    destruct (take (String.length path - String.length ".git") path) as [|c p] eqn:Htake.
    { by rewrite append_empty_l in Hsplit. }
    rewrite <- Hsplit at 1. rewrite match_repo_suffixed; [done|done|].
    rewrite <- Hsplit, all_chars_append in Hlf. by apply andb_prop in Hlf as [? _].
  - rewrite match_repo_plain; [done..|].
    intros p Hp ->. rewrite length_append in E.
    replace (String.length p + String.length ".git" - String.length ".git")%nat
      with (String.length p) in E by lia.
    rewrite drop_length_append in E. apply andb_false_iff in E as [E|E]; [|done].
    apply Nat.leb_gt in E. simpl in E. lia.
Qed.

Lemma match_owner_first taken name path repo_name :
  name <> "" -> all_chars owner_char name = true ->
  match_repo "" path = Some repo_name ->
  match_owner taken (name +:+ String "/" path) = Some (taken +:+ name, repo_name).
Proof.
  intros Hname Hchars Hrepo. revert taken.
  induction name as [|c name IH]; intros taken; [done|].
  simpl in Hchars. apply andb_prop in Hchars as [Hc Hchars].
  unfold owner_char in Hc. apply andb_prop in Hc as [_ Hc].
  rewrite append_cons. cbn [match_owner]. rewrite Hc.
  destruct name as [|d name].
  - rewrite append_empty_l. by rewrite Hrepo.
  - pose proof Hchars as Hd. cbn [all_chars] in Hd. apply andb_prop in Hd as [Hd _].
    unfold owner_char in Hd. apply andb_prop in Hd as [Hd _].
    apply negb_true_iff in Hd.
    rewrite IH by done. rewrite append_cons. cbv iota. rewrite Hd.
    by rewrite append_assoc.
Qed.

Lemma search_remote_skip c s :
  String.prefix "github.com" (String c s) = false ->
  search_remote (String c s) = search_remote s.
Proof.
  intros Hprefix. cbn [search_remote]. unfold match_remote, startswith.
  by rewrite Hprefix.
Qed.

Lemma search_remote_here s groups :
  match_remote s = Some groups -> search_remote s = Some groups.
Proof. intros Hmatch. destruct s; cbn [search_remote]; by rewrite Hmatch. Qed.

Lemma search_remote_none s : contains "github.com" s = false -> search_remote s = None.
Proof.
  induction s as [|c s IH]; [done|].
  rewrite contains_cons. intros [Hprefix Hrest]%orb_false_elim.
  rewrite search_remote_skip by done. auto.
Qed.

End RepositoryInfo.

(** X14.  [get_repository_info] takes one [".git"] from the end of the
    repository name and nothing else: for the HTTPS and the SSH form of a
    GitHub remote with an owner without slash and a name other than
    [".git"], both without line feed, the owner is returned as it is, the
    name without its final [".git"] if it has one, and the URL is built
    from the two.  A remote in which ["github.com"] does not occur gives no
    information. *)
Theorem repository_info_strips_one_suffix :
  (forall name path,
     name <> "" -> all_chars owner_char name = true ->
     path <> "" -> path <> ".git" -> all_chars not_lf path = true ->
     let info :=
       mkRepositoryInfo name (removesuffix ".git" path)
         ("https://github.com/" +:+ name +:+ "/" +:+ removesuffix ".git" path) in
     get_repository_info (Some ("https://github.com/" +:+ name +:+ "/" +:+ path))
     = Some info
     /\ get_repository_info (Some ("git@github.com:" +:+ name +:+ "/" +:+ path))
        = Some info)
  /\ (forall remote_url,
        contains "github.com" remote_url = false ->
        get_repository_info (Some remote_url) = None).
Proof.
  split.
  - intros name path Hname Hchars Hpath Hgit Hlf info.
    pose proof (match_owner_first "" name path _ Hname Hchars
                  (match_repo_removesuffix path Hpath Hgit Hlf)) as Howner.
    rewrite append_empty_l in Howner.
    unfold get_repository_info. split.
    + rewrite !append_cons, !append_empty_l.
      do 8 (rewrite search_remote_skip by reflexivity).
      by rewrite (search_remote_here _ (name, removesuffix ".git" path)) by exact Howner.
    + rewrite !append_cons, !append_empty_l.
      do 4 (rewrite search_remote_skip by reflexivity).
      by rewrite (search_remote_here _ (name, removesuffix ".git" path)) by exact Howner.
  - intros remote_url Hurl. unfold get_repository_info.
    by rewrite search_remote_none.
Qed.

Lemma repository_info_strips_one_suffix_witness :
  (get_repository_info (Some "https://github.com/octo/octo.github.io.git")
   = Some (mkRepositoryInfo "octo" "octo.github.io"
             "https://github.com/octo/octo.github.io")
   /\ get_repository_info (Some "git@github.com:octo/octo.github.io.git")
      = Some (mkRepositoryInfo "octo" "octo.github.io"
                "https://github.com/octo/octo.github.io"))
  /\ get_repository_info (Some "https://gitlab.com/octo/pages.git") = None.
Proof.
  destruct repository_info_strips_one_suffix as [Hgithub Hother]. split.
  - apply (Hgithub "octo" "octo.github.io.git"); done.
  - apply (Hother "https://gitlab.com/octo/pages.git"). reflexivity.
Defined.

(** ** Inferred commit types *)

Section InferredTypes.

Lemma lower_append s t : lower (s +:+ t) = lower s +:+ lower t.
Proof.
  induction s as [|c s IH]; [done|].
  rewrite append_cons. cbn [lower]. by rewrite IH, append_cons.
Qed.

(** The words of the first test are looked for anywhere in the subject,
    in any letter case. *)
Lemma infer_fix before word after :
  In (lower word) ["fix"; "bug"; "patch"] ->
  infer_commit_type (before +:+ word +:+ after) = "fix".
Proof.
  intros Hword. unfold infer_commit_type.
  rewrite !lower_append.
  assert (any_in ["fix"; "bug"; "patch"] (lower before +:+ lower word +:+ lower after)
          = true) as ->; [|done].
  unfold any_in. apply existsb_exists. exists (lower word).
  split; [done|apply contains_app].
Qed.

End InferredTypes.

(** X15.  A subject that does not start with "Merge ", is not in the
    conventional form and contains "fix", "bug" or "patch" anywhere, in any
    letter case and also inside a longer word, is classified as a fix, also
    when it contains words of the later tests such as "add" or "new": the
    commit keeps its whole subject and is listed under Fixed. *)
Theorem fix_word_wins c before word after :
  r_subject c = before +:+ word +:+ after ->
  In (lower word) ["fix"; "bug"; "patch"] ->
  startswith (r_subject c) "Merge " = false ->
  match_conventional (r_subject c) = None ->
  c_type (parse_commit_message c) = "fix"
  /\ c_subject (parse_commit_message c) = r_subject c
  /\ route (c_type (parse_commit_message c)) = Some Fixed.
Proof.
  intros Hsubject Hword Hmerge Hplain.
  assert (is_empty (r_subject c) = false) as Hempty.
  { rewrite Hsubject. destruct before; [|done]. rewrite append_empty_l.
    destruct word; [|done]. cbn [lower In] in Hword. by destruct Hword as [?|[?|[?|?]]]. }
  unfold parse_commit_message. rewrite Hempty, Hmerge, Hplain. cbn [c_type c_subject].
  assert (infer_commit_type (r_subject c) = "fix") as ->; [|done].
  rewrite Hsubject. by apply infer_fix.
Qed.

Lemma fix_word_wins_witness :
  c_type (parse_commit_message (mkRaw "0a1b2c3d4e5f" "Add new Suffix option" "" "dev"))
  = "fix"
  /\ c_subject (parse_commit_message (mkRaw "0a1b2c3d4e5f" "Add new Suffix option" "" "dev"))
     = "Add new Suffix option"
  /\ route (c_type (parse_commit_message
                      (mkRaw "0a1b2c3d4e5f" "Add new Suffix option" "" "dev")))
     = Some Fixed.
Proof.
  apply (fix_word_wins (mkRaw "0a1b2c3d4e5f" "Add new Suffix option" "" "dev")
           "Add new Suf" "fix" " option").
  - reflexivity.
  - simpl. auto.
  - reflexivity.
  - reflexivity.
Defined.
